(** * Joke enrichment pipeline: a shallow embedding of [joke_enrichment.py]

    The development follows the Python source class by class:

    - [PyStr]: the [str] methods the enrichers call ([split], [lower],
      [in], [endswith]) and [re.split] for the pattern [[.!?]+];
    - [PyFloat]: Python floats as IEEE 754 binary64 values (the
      [SpecFloat] model of the Standard Library), integer true division
      and the two-argument [round];
    - [Store]: Python dictionaries as objects in a store, so that the
      shallow [dict.copy] of [enrich_jokes] and the sharing of the nested
      [enrichment] dictionary are visible;
    - [Counter]: [collections.Counter] and its [most_common];
    - one section per enricher class, and the pipeline.

    Scope of the model.  A Python [str] is a sequence of code points; here
    it is a [string] whose characters stand for the code points U+0000 to
    U+00FF.  Lists are immutable values (the program never updates a list
    that another object can reach).  An exception aborts the run: the
    store at the moment of the raise is not kept. *)

From Stdlib Require Import ZArith Lia Ascii SpecFloat.
From stdpp Require Import base list strings sorting.

Local Open Scope string_scope.
Local Open Scope Z_scope.
Local Open Scope list_scope.

(** ** Python strings *)

Module PyStr.

(** [str.isspace] on one character, for code points below 256. *)
Definition isspace (c : ascii) : bool :=
  let n := N_of_ascii c in
  ((9 <=? n) && (n <=? 13) || (28 <=? n) && (n <=? 32)
   || (n =? 133) || (n =? 160))%N.

(** [str.lower] on one character, for code points below 256. *)
Definition lower_char (c : ascii) : ascii :=
  let n := N_of_ascii c in
  if ((65 <=? n) && (n <=? 90)
      || (192 <=? n) && (n <=? 222) && negb (n =? 215))%N
  then ascii_of_N (n + 32) else c.

Fixpoint lower (s : string) : string :=
  match s with
  | EmptyString => EmptyString
  | String c s' => String (lower_char c) (lower s')
  end.

(** [s + c], one character appended. *)
Definition snoc (s : string) (c : ascii) : string := s +:+ String c "".

(** [str.split()] with no separator: the maximal runs of characters
    that are not whitespace.  [cur] is the word being read. *)
Fixpoint split_from (cur : string) (s : string) : list string :=
  match s with
  | EmptyString => if String.eqb cur "" then [] else [cur]
  | String c s' =>
      if isspace c
      then (if String.eqb cur "" then split_from "" s'
            else cur :: split_from "" s')
      else split_from (snoc cur c) s'
  end.

Definition split (s : string) : list string := split_from "" s.

(** [p in s]: [p] occurs in [s] as a contiguous substring. *)
Fixpoint startswith (s p : string) : bool :=
  match p, s with
  | EmptyString, _ => true
  | String a p', String b s' => Ascii.eqb a b && startswith s' p'
  | String _ _, EmptyString => false
  end.

Fixpoint contains (p s : string) : bool :=
  startswith s p ||
  match s with
  | EmptyString => false
  | String _ s' => contains p s'
  end.

(** [s.endswith(c)] for a one-character suffix. *)
Fixpoint endswith_char (s : string) (c : ascii) : bool :=
  match s with
  | EmptyString => false
  | String a EmptyString => Ascii.eqb a c
  | String _ s' => endswith_char s' c
  end.

(** The character class [[.!?]]. *)
Definition is_terminator (c : ascii) : bool :=
  Ascii.eqb c "." || Ascii.eqb c "!" || Ascii.eqb c "?".

(** [re.split(r"[.!?]+", s)]: [cur] is the segment being read and
    [in_run] tells whether the previous character was matched by the
    pattern.  A match never is empty, so the text before it is emitted
    when the match starts and the rest of the match is skipped. *)
Fixpoint re_split_from (cur : string) (in_run : bool) (s : string)
  : list string :=
  match s with
  | EmptyString => [cur]
  | String c s' =>
      if is_terminator c
      then (if in_run then re_split_from cur true s'
            else cur :: re_split_from "" true s')
      else re_split_from (snoc cur c) false s'
  end.

Definition re_split_terminators (s : string) : list string :=
  re_split_from "" false s.

(** The number of maximal runs of characters satisfying [p]; [prev]
    tells whether the previous character satisfied it. *)
Fixpoint count_runs (p : ascii -> bool) (prev : bool) (s : string) : nat :=
  match s with
  | EmptyString => O
  | String c s' =>
      if p c
      then (if prev then count_runs p true s' else S (count_runs p true s'))
      else count_runs p false s'
  end.

End PyStr.

(** ** Python floats *)

Module PyFloat.

Definition prec : Z := 53.
Definition emax : Z := 1024.

Definition float : Type := spec_float.

(** The float nearest to [n / d] (ties to even).  Python obtains it for
    a decimal literal and for the true division of two integers. *)
Definition of_ratio (n : Z) (d : positive) : float :=
  match n with
  | Z0 => S754_zero false
  | Zpos p => SFdiv prec emax (S754_finite false p 0) (S754_finite false d 0)
  | Zneg p => SFdiv prec emax (S754_finite true p 0) (S754_finite false d 0)
  end.

Definition of_Z (n : Z) : float := of_ratio n 1.

(** [a / b] for two integers, the quotient correctly rounded; [None]
    stands for [ZeroDivisionError].  (The operands here are lengths and
    counts, far from the range where Python raises [OverflowError].) *)
Definition truediv (a b : Z) : option float :=
  match b with
  | Z0 => None
  | Zpos d => Some (of_ratio a d)
  | Zneg d => Some (match a with
                    | Z0 => S754_zero true
                    | _ => of_ratio (- a) d
                    end)
  end.

Definition mul : float -> float -> float := SFmul prec emax.
Definition add : float -> float -> float := SFadd prec emax.
Definition sub : float -> float -> float := SFsub prec emax.
Definition opp : float -> float := SFopp.
Definition ltb : float -> float -> bool := SFltb.
Definition leb : float -> float -> bool := SFleb.

(** The integer nearest to [n / d], ties to the even one. *)
Definition div_half_even (n : Z) (d : positive) : Z :=
  let q := n / Zpos d in
  let r := n mod Zpos d in
  match 2 * r ?= Zpos d with
  | Lt => q
  | Gt => q + 1
  | Eq => if Z.even q then q else q + 1
  end.

(** [|x| * 10^nd] rounded to an integer, for [x = m * 2^e]. *)
Definition scaled_digits (m : positive) (e : Z) (nd : N) : Z :=
  let scale := 10 ^ Z.of_N nd in
  match e with
  | Zneg k => div_half_even (Zpos m * scale) (2 ^ k)%positive
  | _ => Zpos m * 2 ^ e * scale
  end.

(** [round(x, nd)] for a float [x] and [0 <= nd]: the exact value of [x]
    is rounded to [nd] decimals, ties to even, and the decimal obtained
    is converted back to the nearest float.  Zeros, infinities and NaN
    round to themselves; the sign is kept. *)
Definition round (x : float) (nd : N) : float :=
  match x with
  | S754_finite s m e =>
      match scaled_digits m e nd with
      | Zpos n =>
          SFdiv prec emax (S754_finite s n 0)
            (S754_finite false (Z.to_pos (10 ^ Z.of_N nd)) 0)
      | _ => S754_zero s
      end
  | _ => x
  end.

End PyFloat.

(** ** Values, dictionaries and the store *)

Inductive exn :=
| TypeError
| AttributeError
| KeyError
| ZeroDivisionError
| BadReference.

(** An address in the store. *)
Abbreviation loc := nat.

(** A value is a scalar, a list or a reference to a dictionary object. *)
#[warnings="-register-all"]
Inductive value :=
| VNone
| VBool (b : bool)
| VInt (n : Z)
| VFloat (x : PyFloat.float)
| VStr (s : string)
| VList (vs : list value)
| VRef (l : loc).

(** The result of [calculate_flesch_kincaid]: the integer [0] or a float. *)
Inductive number :=
| NInt (n : Z)
| NFloat (x : PyFloat.float).

Definition value_of_number (n : number) : value :=
  match n with
  | NInt z => VInt z
  | NFloat x => VFloat x
  end.

(** A dictionary keeps its keys in insertion order. *)
Abbreviation dict := (list (string * value)).

Module Dict.

Fixpoint get (k : string) (d : dict) : option value :=
  match d with
  | [] => None
  | (k', v) :: d' => if String.eqb k' k then Some v else get k d'
  end.

(** [d[k] = v]: an existing key keeps its place. *)
Fixpoint set (k : string) (v : value) (d : dict) : dict :=
  match d with
  | [] => [(k, v)]
  | (k', v') :: d' =>
      if String.eqb k' k then (k', v) :: d' else (k', v') :: set k v d'
  end.

Definition keys (d : dict) : list string := map fst d.
Definition values (d : dict) : list value := map snd d.

End Dict.

(** The store: the dictionary objects by address, and what was printed. *)
Record state := mkState { heap : list dict; stdout : list string }.

Inductive outcome (A : Type) :=
| Ok (a : A) (st : state)
| Raise (e : exn).
Arguments Ok {A} a st.
Arguments Raise {A} e.

Definition M (A : Type) : Type := state -> outcome A.

Definition ret {A} (a : A) : M A := fun st => Ok a st.

Definition bind {A B} (m : M A) (k : A -> M B) : M B :=
  fun st =>
    match m st with
    | Ok a st' => k a st'
    | Raise e => Raise e
    end.

Definition raise {A} (e : exn) : M A := fun _ => Raise e.

Notation "'let!' x ':=' m 'in' k" := (bind m (fun x => k))
  (at level 10, x pattern, m at level 100, k at level 200).

(** A new dictionary object. *)
Definition alloc (d : dict) : M loc :=
  fun st => Ok (length (heap st)) (mkState (heap st ++ [d]) (stdout st)).

(** The object at an address; [BadReference] marks an address outside the
    store, which no Python program can hold. *)
Definition load (l : loc) : M dict :=
  fun st =>
    match heap st !! l with
    | Some d => Ok d st
    | None => Raise BadReference
    end.

(** [obj.get(k, default)] *)
Definition dict_get (l : loc) (k : string) (default : value) : M value :=
  let! d := load l in
  ret (match Dict.get k d with Some v => v | None => default end).

(** [obj[k]] *)
Definition getitem (l : loc) (k : string) : M value :=
  let! d := load l in
  match Dict.get k d with
  | Some v => ret v
  | None => raise KeyError
  end.

(** [obj[k] = v] on a dictionary object *)
Definition setitem (l : loc) (k : string) (v : value) : M unit :=
  let! d := load l in
  fun st => Ok tt (mkState (<[l := Dict.set k v d]> (heap st)) (stdout st)).

(** [obj[k] = v] on any value: only a dictionary takes a string key. *)
Definition obj_setitem (obj : value) (k : string) (v : value) : M unit :=
  match obj with
  | VRef l => setitem l k v
  | _ => raise TypeError
  end.

(** [obj.copy()]: a new dictionary with the same keys and the same values,
    so a nested dictionary is shared with the original. *)
Definition dict_copy (l : loc) : M loc :=
  let! d := load l in
  alloc d.

(** [print(line)] *)
Definition print (line : string) : M unit :=
  fun st => Ok tt (mkState (heap st) (stdout st ++ [line])).

(** [v.lower()]: only a string has the method. *)
Definition str_lower (v : value) : M string :=
  match v with
  | VStr s => ret (PyStr.lower s)
  | _ => raise AttributeError
  end.

(** [v.split()]: only a string has the method. *)
Definition str_split (v : value) : M (list string) :=
  match v with
  | VStr s => ret (PyStr.split s)
  | _ => raise AttributeError
  end.

(** A division whose divisor may be zero. *)
Definition lift_div {A} (o : option A) : M A :=
  match o with
  | Some a => ret a
  | None => raise ZeroDivisionError
  end.

(** ** [collections.Counter] *)

Module Counter.

(** The counts, in the order in which the elements were first seen. *)
Definition t := list (string * nat).

Fixpoint incr (k : string) (c : t) : t :=
  match c with
  | [] => [(k, 1%nat)]
  | (k', n) :: c' =>
      if String.eqb k' k then (k', S n) :: c' else (k', n) :: incr k c'
  end.

(** [Counter(l)] *)
Definition of_list (l : list string) : t :=
  fold_left (fun c k => incr k c) l [].

(** [x] enters a list sorted by decreasing count before the first entry
    whose count is not greater than its own. *)
Fixpoint insert_desc (x : string * nat) (l : t) : t :=
  match l with
  | [] => [x]
  | y :: l' =>
      if (snd x <? snd y)%nat then y :: insert_desc x l' else x :: l
  end.

(** [sorted(c.items(), key=itemgetter(1), reverse=True)]: the sort is
    stable, entries with equal counts keep their order. *)
Definition sorted_desc (c : t) : t := foldr insert_desc [] c.

(** [c.most_common(n)], which the library documents as the first [n]
    entries of the sorted list. *)
Definition most_common (n : nat) (c : t) : t := take n (sorted_desc c).

End Counter.

(** ** The enrichers *)

(** Python's [str()] of a value that is not a string, in a given store, is
    a parameter of the model: it is what an f-string inserts for such a
    value. *)
Definition str_builtin : Type := list dict -> value -> string.

(** [f"{a} {b}"] *)
Definition format_pair (py_str : str_builtin) (a b : value) : M string :=
  fun st =>
    let show v := match v with VStr s => s | _ => py_str (heap st) v end in
    Ok (show a +:+ " " +:+ show b) st.

(** The two statements that end every [enrich] method,
    [joke["enrichment"] = joke.get("enrichment", {})] and
    [joke["enrichment"][self.name] = {...}].  The empty dictionary of the
    first is built whether or not it is used; [rhs] evaluates the
    dictionary display of the second, before its target. *)
Definition add_enrichment (joke : loc) (name : string) (rhs : M dict)
  : M loc :=
  let! fresh := alloc [] in
  let! e := dict_get joke "enrichment" (VRef fresh) in
  let! _ := setitem joke "enrichment" e in
  let! fields := rhs in
  let! block := alloc fields in
  let! target := getitem joke "enrichment" in
  let! _ := obj_setitem target name (VRef block) in
  ret joke.

Module SentimentAnalyzer.

Definition name : string := "sentiment_analysis".

(** The float literals [0.1] and [-0.1]. *)
Definition threshold : PyFloat.float := PyFloat.of_ratio 1 10.
Definition neg_threshold : PyFloat.float := PyFloat.opp threshold.

(** [polarity > 0.1], [polarity < -0.1], else neutral. *)
Definition categorize (polarity : PyFloat.float) : string :=
  if PyFloat.ltb threshold polarity then "positive"
  else if PyFloat.ltb polarity neg_threshold then "negative"
  else "neutral".

Section WithTextBlob.

(** TextBlob's sentiment analyser, a library outside the repository:
    the polarity and the subjectivity it assigns to a text. *)
Variable tb_polarity : string -> PyFloat.float.
Variable tb_subjectivity : string -> PyFloat.float.
Variable py_str : str_builtin.

(** [TextBlob(v)]: the constructor refuses what is not a string. *)
Definition textblob (v : value) : M string :=
  match v with
  | VStr s => ret s
  | _ => raise TypeError
  end.

Definition enrich (joke : loc) : M loc :=
  let! setup := dict_get joke "setup" (VStr "") in
  let! punchline := dict_get joke "punchline" (VStr "") in
  let! full_text := format_pair py_str setup punchline in
  let polarity := tb_polarity full_text in
  let subjectivity := tb_subjectivity full_text in
  let sentiment := categorize polarity in
  add_enrichment joke name
    (let! setup_text := textblob setup in
     let! punchline_text := textblob punchline in
     ret [("sentiment", VStr sentiment);
          ("polarity", VFloat (PyFloat.round polarity 3));
          ("subjectivity", VFloat (PyFloat.round subjectivity 3));
          ("setup_polarity",
            VFloat (PyFloat.round (tb_polarity setup_text) 3));
          ("punchline_polarity",
            VFloat (PyFloat.round (tb_polarity punchline_text) 3))]).

End WithTextBlob.

End SentimentAnalyzer.

Module KeywordExtractor.

Definition name : string := "keyword_extraction".

Definition programming_keywords : list (string * list string) :=
  [("languages",
     ["python"; "java"; "javascript"; "c++"; "c#"; "php"; "ruby"; "go";
      "rust"; "swift"; "kotlin"; "scala"; "perl"; "cobol"; "assembly";
      "html"; "css"; "sql"; "xml"; "json"]);
   ("concepts",
     ["function"; "variable"; "loop"; "array"; "object"; "class";
      "method"; "inheritance"; "polymorphism"; "encapsulation";
      "abstraction"; "recursion"; "algorithm"; "data structure";
      "database"; "api"; "framework"; "library"; "compiler";
      "interpreter"; "debug"; "bug"; "code"; "program"; "software";
      "hardware"; "network"; "server"; "client"; "frontend"; "backend";
      "fullstack"; "devops"; "git"; "version control"; "testing";
      "deployment"; "microservices"; "docker"; "kubernetes"; "cloud";
      "aws"; "azure"; "gcp"]);
   ("tools",
     ["ide"; "editor"; "vscode"; "vim"; "emacs"; "eclipse"; "intellij";
      "github"; "gitlab"; "bitbucket"; "jira"; "confluence"; "slack";
      "teams"; "docker"; "kubernetes"; "jenkins"; "travis"; "circleci";
      "npm"; "pip"; "maven"; "gradle"; "webpack"; "babel"; "eslint";
      "prettier"])].

(** The local [found_keywords]: a list of strings per category. *)
Definition found := list (string * list string).

Definition found_empty : found :=
  [("languages", []); ("concepts", []); ("tools", [])].

(** [found_keywords[category].append(keyword)]; a category that is
    absent would be a [KeyError], the three of the table are present. *)
Fixpoint append (category keyword : string) (f : found) : found :=
  match f with
  | [] => []
  | (c, l) :: f' =>
      if String.eqb c category then (c, l ++ [keyword]) :: f'
      else (c, l) :: append category keyword f'
  end.

(** The two nested loops over the table. *)
Definition find_keywords (full_text : string) : found :=
  fold_left
    (fun f '(category, keywords) =>
       fold_left
         (fun f keyword =>
            if PyStr.contains keyword full_text
            then append category keyword f else f)
         keywords f)
    programming_keywords found_empty.

(** [all_keywords]: the lists of [found_keywords.values()], in order. *)
Definition all_keywords (f : found) : list string :=
  fold_left (fun all '(_, l) => all ++ l) f [].

(** [[kw for kw, freq in keyword_freq.most_common(5)]] *)
Definition top_keywords (all : list string) : list string :=
  map fst (Counter.most_common 5 (Counter.of_list all)).

(** [round(len(all_keywords) / len(full_text.split()), 3)
     if full_text.split() else 0] *)
Definition keyword_density (all : list string) (full_text : string)
  : M value :=
  match PyStr.split full_text with
  | [] => ret (VInt 0)
  | _ :: _ =>
      let! q := lift_div (PyFloat.truediv (Z.of_nat (length all))
                            (Z.of_nat (length (PyStr.split full_text)))) in
      ret (VFloat (PyFloat.round q 3))
  end.

Definition found_dict (f : found) : dict :=
  map (fun '(c, l) => (c, VList (map VStr l))) f.

(** [found_keywords] is created empty and filled by the loops; no other
    object refers to it meanwhile, so it enters the store filled. *)
Definition enrich (joke : loc) : M loc :=
  let! setup_v := dict_get joke "setup" (VStr "") in
  let! setup := str_lower setup_v in
  let! punchline_v := dict_get joke "punchline" (VStr "") in
  let! punchline := str_lower punchline_v in
  let full_text := setup +:+ " " +:+ punchline in
  let f := find_keywords full_text in
  let! found_keywords := alloc (found_dict f) in
  let all := all_keywords f in
  let top := top_keywords all in
  add_enrichment joke name
    (let! density := keyword_density all full_text in
     ret [("keywords_by_category", VRef found_keywords);
          ("top_keywords", VList (map VStr top));
          ("total_keywords", VInt (Z.of_nat (length all)));
          ("keyword_density", density)]).

End KeywordExtractor.

Module ReadabilityScorer.

Definition name : string := "readability_scoring".

Definition vowels : string := "aeiouy".

(** The loop of [count_syllables] over the characters of the word. *)
Fixpoint vowel_loop (count : Z) (on_vowel : bool) (word : string) : Z :=
  match word with
  | EmptyString => count
  | String char rest =>
      let is_vowel := PyStr.contains (String char "") vowels in
      vowel_loop (if is_vowel && negb on_vowel then count + 1 else count)
        is_vowel rest
  end.

Definition count_syllables (word : string) : Z :=
  let word := PyStr.lower word in
  let count := vowel_loop 0 false word in
  let count := if PyStr.endswith_char word "e" then count - 1 else count in
  Z.max count 1.

(** The float literals of the grade formula. *)
Definition c_0_39 : PyFloat.float := PyFloat.of_ratio 39 100.
Definition c_11_8 : PyFloat.float := PyFloat.of_ratio 118 10.
Definition c_15_59 : PyFloat.float := PyFloat.of_ratio 1559 100.

Definition sentence_count (text : string) : nat :=
  length (PyStr.re_split_terminators text).

Definition syllable_sum (words : list string) : Z :=
  fold_left (fun acc word => acc + count_syllables word) words 0.

(** [None] stands for [ZeroDivisionError]. *)
Definition calculate_flesch_kincaid (text : string) : option number :=
  let sentences := Z.of_nat (sentence_count text) in
  let words := Z.of_nat (length (PyStr.split text)) in
  let syllables := syllable_sum (PyStr.split text) in
  if (sentences =? 0) || (words =? 0) then Some (NInt 0)
  else
    match PyFloat.truediv words sentences,
          PyFloat.truediv syllables words with
    | Some ws, Some sw =>
        let grade_level :=
          PyFloat.sub
            (PyFloat.add (PyFloat.mul c_0_39 ws) (PyFloat.mul c_11_8 sw))
            c_15_59 in
        Some (NFloat (PyFloat.round grade_level 2))
    | _, _ => None
    end.

(** [grade_level <= n] for an integer [n] that a float holds exactly. *)
Definition number_leb (g : number) (n : Z) : bool :=
  match g with
  | NInt z => z <=? n
  | NFloat x => PyFloat.leb x (PyFloat.of_Z n)
  end.

Definition _categorize_readability (grade_level : number) : string :=
  if number_leb grade_level 6 then "easy"
  else if number_leb grade_level 10 then "moderate"
  else "difficult".

Definition char_sum (words : list string) : Z :=
  fold_left (fun acc word => acc + Z.of_nat (String.length word)) words 0.

(** [round(sum(len(word) for word in words) / word_count, 2)
     if word_count > 0 else 0] *)
Definition avg_word_length (words : list string) : M value :=
  if 0 <? Z.of_nat (length words)
  then
    let! q := lift_div (PyFloat.truediv (char_sum words)
                          (Z.of_nat (length words))) in
    ret (VFloat (PyFloat.round q 2))
  else ret (VInt 0).

Section WithStr.

Variable py_str : str_builtin.

Definition enrich (joke : loc) : M loc :=
  let! setup := dict_get joke "setup" (VStr "") in
  let! punchline := dict_get joke "punchline" (VStr "") in
  let! full_text := format_pair py_str setup punchline in
  let! flesch_kincaid := lift_div (calculate_flesch_kincaid full_text) in
  let words := PyStr.split full_text in
  let word_count := length words in
  let! avg := avg_word_length words in
  let sentences := sentence_count full_text in
  add_enrichment joke name
    (ret [("flesch_kincaid_grade", value_of_number flesch_kincaid);
          ("word_count", VInt (Z.of_nat word_count));
          ("sentence_count", VInt (Z.of_nat sentences));
          ("average_word_length", avg);
          ("readability_level",
            VStr (_categorize_readability flesch_kincaid))]).

End WithStr.

End ReadabilityScorer.

Module JokeLengthClassifier.

Definition name : string := "length_classification".

(** [self.length_thresholds] *)
Definition threshold_short : Z := 15.
Definition threshold_medium : Z := 30.

Definition classify (word_count : Z) : string :=
  if word_count <=? threshold_short then "short"
  else if word_count <=? threshold_medium then "medium"
  else "long".

Section WithStr.

Variable py_str : str_builtin.

Definition enrich (joke : loc) : M loc :=
  let! setup := dict_get joke "setup" (VStr "") in
  let! punchline := dict_get joke "punchline" (VStr "") in
  let! full_text := format_pair py_str setup punchline in
  let word_count := Z.of_nat (length (PyStr.split full_text)) in
  let char_count := Z.of_nat (String.length full_text) in
  let length_category := classify word_count in
  add_enrichment joke name
    (let! setup_words := str_split setup in
     let! punchline_words := str_split punchline in
     ret [("word_count", VInt word_count);
          ("character_count", VInt char_count);
          ("length_category", VStr length_category);
          ("setup_word_count", VInt (Z.of_nat (length setup_words)));
          ("punchline_word_count",
            VInt (Z.of_nat (length punchline_words)))]).

End WithStr.

End JokeLengthClassifier.

(** ** The pipeline *)

Module JokeEnrichmentPipeline.

(** The four subclasses of [JokeEnricher]. *)
Inductive enricher :=
| Sentiment
| Keywords
| Readability
| Length.

(** [self.enrichers] *)
Definition enrichers : list (string * enricher) :=
  [("sentiment", Sentiment); ("keywords", Keywords);
   ("readability", Readability); ("length", Length)].

Fixpoint lookup (k : string) (r : list (string * enricher))
  : option enricher :=
  match r with
  | [] => None
  | (k', e) :: r' => if String.eqb k' k then Some e else lookup k r'
  end.

Definition enricher_name (e : enricher) : string :=
  match e with
  | Sentiment => SentimentAnalyzer.name
  | Keywords => KeywordExtractor.name
  | Readability => ReadabilityScorer.name
  | Length => JokeLengthClassifier.name
  end.

Definition warning (enrichment_type : string) : string :=
  "Warning: Unknown enrichment type '" +:+ enrichment_type +:+ "'".

Section WithLibraries.

Variable tb_polarity : string -> PyFloat.float.
Variable tb_subjectivity : string -> PyFloat.float.
Variable py_str : str_builtin.

(** The method [enrich] of each class. *)
Definition enrich (e : enricher) (joke : loc) : M loc :=
  match e with
  | Sentiment =>
      SentimentAnalyzer.enrich tb_polarity tb_subjectivity py_str joke
  | Keywords => KeywordExtractor.enrich joke
  | Readability => ReadabilityScorer.enrich py_str joke
  | Length => JokeLengthClassifier.enrich py_str joke
  end.

(** The inner loop of [enrich_jokes], over the requested names. *)
Fixpoint apply_types (enrichment_types : list string)
  (enriched_joke : loc) : M loc :=
  match enrichment_types with
  | [] => ret enriched_joke
  | enrichment_type :: rest =>
      match lookup enrichment_type enrichers with
      | Some e =>
          let! enriched_joke := enrich e enriched_joke in
          apply_types rest enriched_joke
      | None =>
          let! _ := print (warning enrichment_type) in
          apply_types rest enriched_joke
      end
  end.

(** The outer loop, over the records; the result is [enriched_jokes]. *)
Fixpoint enrich_jokes (jokes : list loc) (enrichment_types : list string)
  : M (list loc) :=
  match jokes with
  | [] => ret []
  | joke :: rest =>
      let! enriched_joke := dict_copy joke in
      let! enriched_joke := apply_types enrichment_types enriched_joke in
      let! enriched_jokes := enrich_jokes rest enrichment_types in
      ret (enriched_joke :: enriched_jokes)
  end.

End WithLibraries.

End JokeEnrichmentPipeline.

(** ** Reading the store

    The definitions below are used to state the properties of the
    enrichers; none of them is part of the Python program. *)

(** [obj[k]] in a store, when both exist. *)
Definition field (h : list dict) (l : loc) (k : string) : option value :=
  match h !! l with
  | Some d => Dict.get k d
  | None => None
  end.

(** The dictionary a value refers to. *)
Definition deref (h : list dict) (o : option value) : option dict :=
  match o with
  | Some (VRef l) => h !! l
  | _ => None
  end.

(** [joke["enrichment"]], the enrichment namespace of a record. *)
Definition enrichment_of (h : list dict) (joke : loc) : option dict :=
  deref h (field h joke "enrichment").

(** [joke["enrichment"][k]] *)
Definition namespace_get (h : list dict) (joke : loc) (k : string)
  : option value :=
  match enrichment_of h joke with
  | Some e => Dict.get k e
  | None => None
  end.

(** The block a module stored under its name. *)
Definition block_of (h : list dict) (joke : loc) (name : string)
  : option dict :=
  deref h (namespace_get h joke name).

(** A field of a block. *)
Definition block_field (h : list dict) (joke : loc) (name k : string)
  : option value :=
  match block_of h joke name with
  | Some b => Dict.get k b
  | None => None
  end.

(** A text field is absent or a string. *)
Definition is_text (o : option value) : bool :=
  match o with
  | None | Some (VStr _) => true
  | _ => false
  end.

(** The [enrichment] field is absent or refers to a dictionary. *)
Definition is_namespace (h : list dict) (o : option value) : bool :=
  match o with
  | None => true
  | Some (VRef l) => (l <? length h)%nat
  | _ => false
  end.

(** A record as the data model describes it. *)
Definition well_formed (h : list dict) (joke : loc) : bool :=
  match h !! joke with
  | Some d =>
      is_text (Dict.get "setup" d) && is_text (Dict.get "punchline" d)
      && is_namespace h (Dict.get "enrichment" d)
  | None => false
  end.

(** [joke.get(k, "")] for a text field. *)
Definition text_field (d : dict) (k : string) : string :=
  match Dict.get k d with
  | Some (VStr s) => s
  | _ => ""
  end.

(** [f"{setup} {punchline}"] *)
Definition full_text (d : dict) : string :=
  text_field d "setup" +:+ " " +:+ text_field d "punchline".

(** The keys the pipeline writes: [enrichment] in a record and the name
    of a module in a namespace. *)
Definition written_keys : list string :=
  ["enrichment"; SentimentAnalyzer.name; KeywordExtractor.name;
   ReadabilityScorer.name; JokeLengthClassifier.name].

Definition is_written (k : string) : bool :=
  existsb (String.eqb k) written_keys.

(** What an object of the store may become: it keeps its keys, the keys
    the pipeline does not write keep their values, and a namespace that
    is present stays the same object. *)
Record dict_grows (d d' : dict) : Prop := {
  grows_keys : forall k, is_Some (Dict.get k d) -> is_Some (Dict.get k d');
  grows_other : forall k,
    is_written k = false -> Dict.get k d' = Dict.get k d;
  grows_namespace : forall v,
    Dict.get "enrichment" d = Some v -> Dict.get "enrichment" d' = Some v
}.

(** The value is a reference to an object of the store. *)
Definition is_ref (h : list dict) (o : option value) : bool :=
  match o with
  | Some (VRef l) => (l <? length h)%nat
  | _ => false
  end.

(** What a store may become: every object stays, grown; where its
    [enrichment] field was absent or a dictionary it still is, and a key
    that held a dictionary still holds one. *)
Definition store_grows (h h' : list dict) : Prop :=
  forall l d, h !! l = Some d ->
    exists d', h' !! l = Some d' /\ dict_grows d d'
      /\ (is_namespace h (Dict.get "enrichment" d) = true ->
          is_namespace h' (Dict.get "enrichment" d') = true)
      /\ (forall k, is_ref h (Dict.get k d) = true ->
          is_ref h' (Dict.get k d') = true).

(** A right-hand side that evaluates to [fields] and changes nothing. *)
Definition pure_rhs (rhs : M dict) (fields : dict) : Prop :=
  forall st, rhs st = Ok fields st.

(** The effect of one [enrich] on the record [joke]: the block is stored
    under the module's name, the other keys of the namespace and the
    other fields of the record keep their values, the objects that are
    neither the record nor its namespace are untouched. *)
Record enriched (name : string) (fields : dict) (joke : loc)
  (h h' : list dict) : Prop := {
  en_block : block_of h' joke name = Some fields;
  en_siblings : forall k,
    k <> name -> namespace_get h' joke k = namespace_get h joke k;
  en_fields : forall k,
    k <> "enrichment" ->
    k <> name \/ field h joke "enrichment" <> Some (VRef joke) ->
    field h' joke k = field h joke k;
  en_frame : forall l,
    l <> joke -> field h joke "enrichment" <> Some (VRef l) ->
    (l < length h)%nat -> h' !! l = h !! l;
  en_grows : store_grows h h'
}.

(** [c in "aeiouy"], spelled out. *)
Definition is_vowel_char (c : ascii) : bool :=
  Ascii.eqb c "a" || Ascii.eqb c "e" || Ascii.eqb c "i"
  || Ascii.eqb c "o" || Ascii.eqb c "u" || Ascii.eqb c "y".

(** The sum of a list of integers. *)
Definition Z_sum (l : list Z) : Z := foldr Z.add 0 l.

(** The grade formula on the three counts. *)
Definition grade_formula (words sentences : positive) (syllables : Z)
  : PyFloat.float :=
  PyFloat.round
    (PyFloat.sub
       (PyFloat.add
          (PyFloat.mul ReadabilityScorer.c_0_39
             (PyFloat.of_ratio (Zpos words) sentences))
          (PyFloat.mul ReadabilityScorer.c_11_8
             (PyFloat.of_ratio syllables words)))
       ReadabilityScorer.c_15_59)
    2.

(** The value of [calculate_flesch_kincaid] on a text. *)
Definition flesch_kincaid_value (text : string) : number :=
  let words := PyStr.split text in
  match length words with
  | O => NInt 0
  | S _ =>
      NFloat (grade_formula (Pos.of_nat (length words))
                (Pos.of_nat (ReadabilityScorer.sentence_count text))
                (Z_sum (map ReadabilityScorer.count_syllables words)))
  end.

(** [a / b] rounded to [nd] decimals when [b] is not zero, the integer 0
    otherwise. *)
Definition rounded_ratio (a : Z) (b : nat) (nd : N) : value :=
  match b with
  | O => VInt 0
  | S _ => VFloat (PyFloat.round (PyFloat.of_ratio a (Pos.of_nat b)) nd)
  end.

(** The text the keyword extractor searches. *)
Definition lower_text (d : dict) : string :=
  PyStr.lower (text_field d "setup") +:+ " "
  +:+ PyStr.lower (text_field d "punchline").

(** ** Sample data *)

(** The second record of the demonstration script. *)
Definition sample_joke : dict :=
  [("joke_id", VStr "test_002");
   ("setup", VStr "A programmer had a problem. He decided to use Java.");
   ("punchline", VStr "He now has a ProblemFactory.");
   ("source_url", VStr "https://example.com")].

Definition sample_store : list dict := [sample_joke].

(** A record that went through the pipeline before: it has a namespace,
    the object at address 1. *)
Definition enriched_joke : dict :=
  [("joke_id", VStr "t1"); ("setup", VStr "a"); ("punchline", VStr "b");
   ("enrichment", VRef 1%nat)].

Definition enriched_store : list dict := [enriched_joke; []].

(** Stand-ins for the libraries, to run the model on the samples. *)
Definition no_str : str_builtin := fun _ _ => "".

Definition flat_polarity : string -> PyFloat.float :=
  fun _ => S754_zero false.

Definition mild_polarity : string -> PyFloat.float :=
  fun _ => PyFloat.of_ratio 1002 10000.

(** The keywords of each category that occur in a text, in the order of
    the table. *)
Definition found_in (text : string) : KeywordExtractor.found :=
  map (fun '(category, keywords) =>
         (category,
          List.filter (fun kw => PyStr.contains kw text) keywords))
    KeywordExtractor.programming_keywords.

(** All of them, category after category. *)
Definition all_found (text : string) : list string :=
  concat (map snd (found_in text)).

(** ** The most frequent elements of a list *)

(** How often [x] occurs in [l]. *)
Definition occurrences (x : string) (l : list string) : nat :=
  length (List.filter (String.eqb x) l).

(** Reading [l], [a] is met before [b] is. *)
Definition first_before (l : list string) (a b : string) : Prop :=
  exists pre post, l = pre ++ a :: post /\ ~ In a pre /\ ~ In b pre /\ a <> b.

(** [a] comes before [b] in the ranking: it occurs more often, or as
    often and is met first. *)
Definition outranks (l : list string) (a b : string) : Prop :=
  (occurrences b l < occurrences a l)%nat
  \/ (occurrences a l = occurrences b l /\ first_before l a b).

(** [top] lists the [n] most frequent elements of [all], best first. *)
Record most_frequent (n : nat) (all top : list string) : Prop := {
  mf_length : (length top <= n)%nat;
  mf_nodup : NoDup top;
  mf_among : forall x, In x top -> In x all;
  mf_sorted : StronglySorted (outranks all) top;
  mf_complete : forall y, In y all -> ~ In y top ->
    length top = n /\ forall x, In x top -> outranks all x y
}.

(** The order of the entries of a counter by decreasing count, entries
    with the same count in the order [before]. *)
Definition by_count (before : string * nat -> string * nat -> Prop)
  (x y : string * nat) : Prop :=
  (snd y < snd x)%nat \/ (snd x = snd y /\ before x y).

(** What [Counter(l)] holds: one entry per element of [l], with the
    number of its occurrences, in the order in which the elements are
    first met. *)
Record counts (l : list string) (c : Counter.t) : Prop := {
  ci_nodup : NoDup (map fst c);
  ci_keys : forall k, In k (map fst c) <-> In k l;
  ci_counts : forall k n, In (k, n) c -> n = occurrences k l;
  ci_order : StronglySorted (first_before l) (map fst c)
}.

(** The order of two entries of [Counter(l)]. *)
Definition entry_before (l : list string) (x y : string * nat) : Prop :=
  first_before l (fst x) (fst y)
  /\ snd x = occurrences (fst x) l /\ snd y = occurrences (fst y) l.

(** ** The pipeline on a list of names *)

(** The name is in the registry. *)
Definition is_known (enrichment_type : string) : bool :=
  match JokeEnrichmentPipeline.lookup enrichment_type
          JokeEnrichmentPipeline.enrichers with
  | Some _ => true
  | None => false
  end.

(** The requested names that are in the registry, in the order of the
    request. *)
Definition valid_types (enrichment_types : list string) : list string :=
  List.filter is_known enrichment_types.

(** The warnings one record causes, in the order of the request. *)
Definition warnings (enrichment_types : list string) : list string :=
  map JokeEnrichmentPipeline.warning
    (List.filter (fun t => negb (is_known t)) enrichment_types).

(** The output record [o] for the input record [j]: a new object with
    the fields of [j], a block for every known name of the request and,
    in its namespace, every key the namespace of [j] had. *)
Record enriched_copy (enrichment_types : list string) (h h' : list dict)
  (j o : loc) : Prop := {
  ec_fresh : (length h <= o)%nat;
  ec_fields : forall k,
    is_written k = false -> field h' o k = field h j k;
  ec_blocks : forall t e,
    In t enrichment_types ->
    JokeEnrichmentPipeline.lookup t JokeEnrichmentPipeline.enrichers
    = Some e ->
    is_Some (block_of h' o (JokeEnrichmentPipeline.enricher_name e));
  ec_keys : forall k,
    is_Some (namespace_get h j k) -> is_Some (namespace_get h' o k)
}.

(** ** The words of the specification, written out

    The definitions of this module do not come from the program: they
    say, with the binary64 operations of the Standard Library and with
    integer arithmetic, what the specification's sentences mean.  The
    properties below compare the program with them. *)

Module Spec.

(** The binary64 float nearest to [n / d]: the value of the decimal
    literal, and of the true division of two positive integers. *)
Definition decimal (n d : positive) : spec_float :=
  SFdiv 53 1024 (S754_finite false n 0) (S754_finite false d 0).

(** The same for a numerator that may be zero or negative. *)
Definition quotient (a : Z) (b : positive) : spec_float :=
  match a with
  | Z0 => S754_zero false
  | Zpos p => decimal p b
  | Zneg p =>
      SFdiv 53 1024 (S754_finite true p 0) (S754_finite false b 0)
  end.

(** [n] is the integer nearest to [num / den], the even one of the two
    when [num / den] lies half-way. *)
Definition nearest_even (num : Z) (den : Z) (n : Z) : Prop :=
  Z.abs (2 * num - 2 * n * den) <= den
  /\ (Z.abs (2 * num - 2 * n * den) = den -> Z.even n = true).

(** [r] is [x] rounded to [nd] decimals: for a finite [x = m * 2^e] of
    sign [s], the float of the decimal [n / 10^nd] with the sign [s],
    where [n] is the integer nearest to [m * 2^e * 10^nd]; zeros,
    infinities and NaN are left as they are. *)
Definition rounded (nd : N) (x r : spec_float) : Prop :=
  match x with
  | S754_finite s m e =>
      exists n : Z,
        nearest_even (Zpos m * 10 ^ Z.of_N nd * 2 ^ Z.max e 0)
          (2 ^ Z.max (- e) 0) n
        /\ r = match n with
               | Zpos p =>
                   SFdiv 53 1024 (S754_finite s p 0)
                     (S754_finite false (Z.to_pos (10 ^ Z.of_N nd)) 0)
               | _ => S754_zero s
               end
  | _ => r = x
  end.

(** The grade formula
    [0.39 * (words / sentences) + 11.8 * (syllables / words) - 15.59]
    in binary64 arithmetic, before it is rounded. *)
Definition grade (words sentences : positive) (syllables : Z)
  : spec_float :=
  SFsub 53 1024
    (SFadd 53 1024
       (SFmul 53 1024 (decimal 39 100) (quotient (Zpos words) sentences))
       (SFmul 53 1024 (decimal 118 10) (quotient syllables words)))
    (decimal 1559 100).

(** The upper-case letters below U+0100 and, at the same places, their
    lower-case letters: A to Z, and the accented letters U+00C0 to
    U+00DE without the multiplication sign U+00D7. *)
Definition upper_letters : list ascii :=
  String.list_ascii_of_string "ABCDEFGHIJKLMNOPQRSTUVWXYZ"
  ++ map ascii_of_nat
       [192; 193; 194; 195; 196; 197; 198; 199; 200; 201; 202; 203; 204;
        205; 206; 207; 208; 209; 210; 211; 212; 213; 214; 216; 217; 218;
        219; 220; 221; 222]%nat.

Definition lower_letters : list ascii :=
  String.list_ascii_of_string "abcdefghijklmnopqrstuvwxyz"
  ++ map ascii_of_nat
       [224; 225; 226; 227; 228; 229; 230; 231; 232; 233; 234; 235; 236;
        237; 238; 239; 240; 241; 242; 243; 244; 245; 246; 248; 249; 250;
        251; 252; 253; 254]%nat.

(** The lower-case letter of an upper-case letter, looked up in the two
    lists; any other character is left as it is. *)
Fixpoint lower_of (uppers lowers : list ascii) (c : ascii) : ascii :=
  match uppers, lowers with
  | u :: uppers, l :: lowers =>
      if Ascii.eqb c u then l else lower_of uppers lowers c
  | _, _ => c
  end.

(** The text with every letter in lower case. *)
Fixpoint lower (text : string) : string :=
  match text with
  | EmptyString => EmptyString
  | String c rest =>
      String (lower_of upper_letters lower_letters c) (lower rest)
  end.

(** The whitespace characters below U+0100, by code point. *)
Definition is_whitespace (c : ascii) : bool :=
  existsb (Nat.eqb (nat_of_ascii c))
    [9; 10; 11; 12; 13; 28; 29; 30; 31; 32; 133; 160]%nat.

(** The number of words of a text: its maximal runs of characters that
    are not whitespace. *)
Definition word_count (text : string) : nat :=
  PyStr.count_runs (fun c => negb (is_whitespace c)) false text.

(** A text of whitespace only, possibly empty. *)
Fixpoint blank (text : string) : bool :=
  match text with
  | EmptyString => true
  | String c rest => is_whitespace c && blank rest
  end.

(** A text without whitespace, possibly empty. *)
Fixpoint solid (text : string) : bool :=
  match text with
  | EmptyString => true
  | String c rest => negb (is_whitespace c) && solid rest
  end.

(** The text is empty or starts with a whitespace character. *)
Definition at_gap (text : string) : bool :=
  match text with
  | EmptyString => true
  | String c _ => is_whitespace c
  end.

(** [tokens text words]: [words] are the whitespace-split tokens of
    [text].  A blank text has none; otherwise the text is some
    whitespace, the first token, which is not empty, has no whitespace
    and ends at a whitespace character or at the end of the text, and
    then a text that has the other tokens. *)
Inductive tokens : string -> list string -> Prop :=
| tokens_none (gap : string) :
    blank gap = true -> tokens gap []
| tokens_more (gap word rest : string) (words : list string) :
    blank gap = true ->
    word <> "" -> solid word = true -> at_gap rest = true ->
    tokens rest words ->
    tokens (gap +:+ word +:+ rest) (word :: words).

(** The characters that end a sentence. *)
Definition is_terminator (c : ascii) : bool :=
  existsb (Ascii.eqb c) ["."; "!"; "?"]%char.

(** The number of sentences of a text: one more than its maximal runs
    of sentence terminators, the segments between them. *)
Definition sentence_count (text : string) : nat :=
  S (PyStr.count_runs is_terminator false text).

(** The enrichers a request names, in the order of the request. *)
Fixpoint known_enrichers (enrichment_types : list string)
  : list JokeEnrichmentPipeline.enricher :=
  match enrichment_types with
  | [] => []
  | t :: rest =>
      match JokeEnrichmentPipeline.lookup t
              JokeEnrichmentPipeline.enrichers with
      | Some e => e :: known_enrichers rest
      | None => known_enrichers rest
      end
  end.

Section WithLibraries.

Variable tb_polarity : string -> PyFloat.float.
Variable tb_subjectivity : string -> PyFloat.float.
Variable py_str : str_builtin.

(** The enrichers applied one after the other, each to the record the
    one before returned. *)
Fixpoint run_in_order (es : list JokeEnrichmentPipeline.enricher)
  (joke : loc) : M loc :=
  match es with
  | [] => ret joke
  | e :: rest =>
      let! joke :=
        JokeEnrichmentPipeline.enrich tb_polarity tb_subjectivity py_str
          e joke in
      run_in_order rest joke
  end.

(** Every record copied and its copy enriched, in the order of the list. *)
Fixpoint pipeline (es : list JokeEnrichmentPipeline.enricher)
  (jokes : list loc) : M (list loc) :=
  match jokes with
  | [] => ret []
  | joke :: rest =>
      let! copy := dict_copy joke in
      let! enriched := run_in_order es copy in
      let! others := pipeline es rest in
      ret (enriched :: others)
  end.

End WithLibraries.

End Spec.

(** ** More sample data *)

(** A text of 10 words, 3 segments and 16 syllables. *)
Definition glasses_text : string :=
  "Why do Java developers wear glasses? Because they don't C#.".

(** A record whose keyword density needs rounding: 2 keywords, 6 words. *)
Definition fun_joke : dict :=
  [("joke_id", VStr "t3"); ("setup", VStr "Java is fun");
   ("punchline", VStr "so is Go")].

(** A record with neither [setup] nor [punchline]. *)
Definition empty_joke : dict := [("joke_id", VStr "t4")].

Definition positive_joke : dict :=
  [("joke_id", VStr "t5"); ("setup", VStr "I love bugs");
   ("punchline", VStr "said no one")].

(** A record without punchline. *)
Definition negative_joke : dict :=
  [("joke_id", VStr "t6"); ("setup", VStr "I hate Mondays")].

(** A record that went through the sentiment module: its namespace, the
    object at address 1, has the key [sentiment_analysis], whose block
    is the object at address 2. *)
Definition sibling_store : list dict :=
  [[("joke_id", VStr "t7"); ("setup", VStr "a"); ("punchline", VStr "b");
    ("enrichment", VRef 1%nat)];
   [("sentiment_analysis", VRef 2%nat)];
   [("sentiment", VStr "neutral")]].

(** Two records, to count the warnings. *)
Definition two_jokes : list dict := [sample_joke; fun_joke].

(** A stand-in for TextBlob that tells texts apart: no words, no
    sentiment; "love" is positive, "hate" is negative. *)
Definition toy_polarity (text : string) : PyFloat.float :=
  match PyStr.split text with
  | [] => S754_zero false
  | _ :: _ =>
      if PyStr.contains "love" text then Spec.decimal 1 2
      else if PyStr.contains "hate" text then SFopp (Spec.decimal 1 2)
      else S754_zero false
  end.

Definition toy_subjectivity (text : string) : PyFloat.float :=
  match PyStr.split text with
  | [] => S754_zero false
  | _ :: _ => Spec.decimal 6 10
  end.

(** * Properties *)

(** ** Strings *)

Section StringFacts.

Lemma is_vowel_char_in c :
  PyStr.contains (String c "") ReadabilityScorer.vowels = is_vowel_char c.
Proof.
  unfold is_vowel_char, ReadabilityScorer.vowels. simpl.
  rewrite !(Ascii.eqb_sym c), !andb_true_r, !orb_false_r.
  by rewrite !orb_assoc.
Qed.

Lemma vowel_loop_runs w : forall count on_vowel,
  ReadabilityScorer.vowel_loop count on_vowel w =
  count + Z.of_nat (PyStr.count_runs is_vowel_char on_vowel w).
Proof.
  induction w as [|c w IH]; intros count on_vowel;
    cbn [ReadabilityScorer.vowel_loop PyStr.count_runs]; [lia|].
  rewrite IH, is_vowel_char_in.
  destruct (is_vowel_char c), on_vowel; simpl; lia.
Qed.

Lemma re_split_from_length s : forall cur in_run,
  length (PyStr.re_split_from cur in_run s) =
  S (PyStr.count_runs PyStr.is_terminator in_run s).
Proof.
  induction s as [|c s IH]; intros cur in_run; simpl; [done|].
  destruct (PyStr.is_terminator c), in_run; simpl; by rewrite IH.
Qed.

Lemma syllable_sum_from words : forall acc,
  fold_left (fun acc word => acc + ReadabilityScorer.count_syllables word)
    words acc =
  acc + Z_sum (map ReadabilityScorer.count_syllables words).
Proof.
  induction words as [|w words IH]; intros acc; simpl; [lia|].
  rewrite IH. lia.
Qed.

Lemma lower_app (a b : string) :
  PyStr.lower (a +:+ b) = PyStr.lower a +:+ PyStr.lower b.
Proof. induction a as [|c a IH]; simpl; [done|by rewrite IH]. Qed.

Lemma startswith_prefix (p : string) : forall s,
  PyStr.startswith s p = true <-> exists post, s = p +:+ post.
Proof.
  induction p as [|a p IH]; intros s; simpl.
  - split; [by exists s|by destruct s].
  - destruct s as [|b s]; simpl.
    + split; [done|by intros [post ?]].
    + rewrite andb_true_iff, IH. split.
      * intros [Hab%Ascii.eqb_eq [post ->]]. subst. by exists post.
      * intros [post [= -> ->]]. split; [apply Ascii.eqb_refl|by exists post].
Qed.

(** [p in s] holds exactly when [s] is some text, [p], some text. *)
Lemma contains_substring (p s : string) :
  PyStr.contains p s = true <-> exists pre post, s = pre +:+ p +:+ post.
Proof.
  induction s as [|c s IH]; cbn [PyStr.contains].
  - rewrite orb_false_r, startswith_prefix. split.
    + intros [post H]. by exists "", post.
    + intros (pre & post & H). destruct pre; [by exists post|done].
  - rewrite orb_true_iff, startswith_prefix, IH. split.
    + intros [[post H]|(pre & post & ->)].
      * by exists "", post.
      * by exists (String c pre), post.
    + intros (pre & post & H). destruct pre as [|c' pre].
      * left. by exists post.
      * right. injection H as -> ->. by exists pre, post.
Qed.

(** [s.endswith(c)] holds exactly when [s] is some text and then [c]. *)
Lemma endswith_char_suffix (c : ascii) : forall s,
  PyStr.endswith_char s c = true <-> exists p, s = p +:+ String c "".
Proof.
  induction s as [|a s IH].
  - split; [done|]. intros [p H]. by destruct p.
  - destruct s as [|b s].
    + cbn [PyStr.endswith_char]. split.
      * intros H. apply Ascii.eqb_eq in H. subst a. by exists "".
      * intros [p H]. destruct p as [|a' p].
        -- injection H as ->. apply Ascii.eqb_refl.
        -- injection H as _ H. by destruct p.
    + change (PyStr.endswith_char (String a (String b s)) c)
        with (PyStr.endswith_char (String b s) c).
      rewrite IH. split.
      * intros [p H]. exists (String a p). simpl. by rewrite H.
      * intros [p H]. destruct p as [|a' p]; [done|].
        injection H as _ H. by exists p.
Qed.

Lemma isspace_whitespace (c : ascii) :
  PyStr.isspace c = Spec.is_whitespace c.
Proof. by destruct c as [[] [] [] [] [] [] [] []]. Qed.

Lemma snoc_not_empty (s : string) (c : ascii) :
  String.eqb (PyStr.snoc s c) "" = false.
Proof. by destruct s. Qed.

Lemma split_from_runs (s : string) : forall cur,
  length (PyStr.split_from cur s)
  = (PyStr.count_runs (fun c => negb (Spec.is_whitespace c))
       (negb (String.eqb cur "")) s
     + (if String.eqb cur "" then 0 else 1))%nat.
Proof.
  induction s as [|c s IH]; intros cur; cbn [PyStr.split_from PyStr.count_runs].
  - by destruct (String.eqb cur "").
  - rewrite <- isspace_whitespace. destruct (PyStr.isspace c); cbn [negb].
    + destruct (String.eqb cur ""); cbn [length]; rewrite IH; simpl; lia.
    + rewrite IH, snoc_not_empty. destruct (String.eqb cur ""); simpl; lia.
Qed.

(** [str.split()] yields as many words as the text has runs of
    characters that are not whitespace. *)
Lemma split_word_count (text : string) :
  length (PyStr.split text) = Spec.word_count text.
Proof.
  unfold PyStr.split, Spec.word_count. rewrite split_from_runs. simpl. lia.
Qed.

Lemma tokens_after_whitespace (c : ascii) (s : string) (words : list string) :
  Spec.is_whitespace c = true ->
  Spec.tokens s words -> Spec.tokens (String c s) words.
Proof.
  intros Hc [gap Hg|gap word rest ws Hg Hne Hw Hr Ht].
  - apply Spec.tokens_none. cbn [Spec.blank]. by rewrite Hc.
  - apply (Spec.tokens_more (String c gap)); try done.
    cbn [Spec.blank]. by rewrite Hc.
Qed.

Lemma append_cons (a : ascii) (s t : string) :
  String a s +:+ t = String a (s +:+ t).
Proof. done. Qed.

Lemma append_empty_l (s : string) : "" +:+ s = s.
Proof. done. Qed.

Lemma append_snoc (cur w : string) (c : ascii) :
  PyStr.snoc cur c +:+ w = cur +:+ String c w.
Proof.
  unfold PyStr.snoc. induction cur as [|a cur IH]; [done|].
  change (String a ((cur +:+ String c "") +:+ w)
          = String a (cur +:+ String c w)).
  by rewrite IH.
Qed.

Lemma append_empty_r (s : string) : s +:+ "" = s.
Proof.
  induction s as [|a s IH]; [done|].
  change (String a (s +:+ "") = String a s). by rewrite IH.
Qed.

Lemma snoc_neq_empty (cur : string) (c : ascii) : PyStr.snoc cur c <> "".
Proof. by destruct cur. Qed.

(** [split_from]: the word being read is completed by the characters up
    to the next whitespace, and the rest is split. *)
Lemma split_from_tokens (s : string) :
  Spec.tokens s (PyStr.split_from "" s)
  /\ forall cur, cur <> "" ->
     exists w rest words,
       PyStr.split_from cur s = (cur +:+ w) :: words
       /\ s = w +:+ rest
       /\ Spec.solid w = true
       /\ Spec.at_gap rest = true
       /\ Spec.tokens rest words.
Proof.
  induction s as [|c s [IH0 IH]].
  - split; [by apply Spec.tokens_none|].
    intros cur Hcur. exists "", "", [].
    cbn [PyStr.split_from]. rewrite append_empty_r.
    destruct cur; [done|].
    repeat split. by apply Spec.tokens_none.
  - cbn [PyStr.split_from]. rewrite isspace_whitespace.
    destruct (Spec.is_whitespace c) eqn:Hc.
    + split; [by apply tokens_after_whitespace|].
      intros cur Hcur. exists "", (String c s), (PyStr.split_from "" s).
      rewrite append_empty_r. destruct cur; [done|].
      repeat split; [done|]. by apply tokens_after_whitespace.
    + split.
      * destruct (IH (PyStr.snoc "" c) (snoc_neq_empty _ _))
          as (w & rest & words & -> & -> & Hw & Hr & Ht).
        apply (Spec.tokens_more "" (String c w) rest words); try done.
        cbn [Spec.solid]. by rewrite Hc.
      * intros cur Hcur.
        destruct (IH (PyStr.snoc cur c) (snoc_neq_empty _ _))
          as (w & rest & words & -> & -> & Hw & Hr & Ht).
        exists (String c w), rest, words.
        rewrite append_snoc. repeat split; try done.
        cbn [Spec.solid]. by rewrite Hc.
Qed.

(** [str.split()] yields the whitespace-split tokens of the text. *)
Lemma split_tokens (text : string) : Spec.tokens text (PyStr.split text).
Proof. apply split_from_tokens. Qed.

Lemma blank_solid_empty (s : string) :
  Spec.blank s = true -> Spec.solid s = true -> s = "".
Proof.
  destruct s as [|c s]; [done|]. cbn [Spec.blank Spec.solid].
  by destruct (Spec.is_whitespace c).
Qed.

(** A text that starts with a token: the token is determined. *)
Lemma token_prefix_unique (w : string) : forall w' rest rest',
  Spec.solid w = true -> Spec.solid w' = true ->
  Spec.at_gap rest = true -> Spec.at_gap rest' = true ->
  w +:+ rest = w' +:+ rest' -> w = w' /\ rest = rest'.
Proof.
  induction w as [|c w IH]; intros w' rest rest' Hw Hw' Hr Hr' He.
  - destruct w' as [|c' w']; [done|]. rewrite ?append_empty_l, ?append_cons in He. subst rest.
    cbn [Spec.solid] in Hw'. cbn [Spec.at_gap] in Hr.
    by rewrite Hr in Hw'.
  - destruct w' as [|c' w'].
    + rewrite ?append_empty_l, ?append_cons in He. subst rest'.
      cbn [Spec.solid] in Hw. cbn [Spec.at_gap] in Hr'.
      by rewrite Hr' in Hw.
    + rewrite ?append_empty_l, ?append_cons in He. injection He as -> He.
      cbn [Spec.solid] in Hw, Hw'.
      apply andb_true_iff in Hw as [_ Hw].
      apply andb_true_iff in Hw' as [_ Hw'].
      destruct (IH w' rest rest' Hw Hw' Hr Hr' He) as [-> ->]. done.
Qed.

(** Leading whitespace is determined too. *)
Lemma gap_prefix_unique (g : string) : forall g' t t',
  Spec.blank g = true -> Spec.blank g' = true ->
  (t = "" \/ Spec.at_gap t = false) ->
  (t' = "" \/ Spec.at_gap t' = false) ->
  g +:+ t = g' +:+ t' -> g = g' /\ t = t'.
Proof.
  induction g as [|c g IH]; intros g' t t' Hg Hg' Ht Ht' He.
  - destruct g' as [|c' g']; [done|]. rewrite ?append_empty_l, ?append_cons in He. subst t.
    cbn [Spec.blank] in Hg'. apply andb_true_iff in Hg' as [Hc _].
    destruct Ht as [Ht|Ht]; [done|]. cbn [Spec.at_gap] in Ht. congruence.
  - destruct g' as [|c' g'].
    + rewrite ?append_empty_l, ?append_cons in He. subst t'.
      cbn [Spec.blank] in Hg. apply andb_true_iff in Hg as [Hc _].
      destruct Ht' as [Ht'|Ht']; [done|]. cbn [Spec.at_gap] in Ht'.
      congruence.
    + rewrite ?append_empty_l, ?append_cons in He. injection He as -> He.
      cbn [Spec.blank] in Hg, Hg'.
      apply andb_true_iff in Hg as [_ Hg].
      apply andb_true_iff in Hg' as [_ Hg'].
      destruct (IH g' t t' Hg Hg' Ht Ht' He) as [-> ->]. done.
Qed.

Lemma solid_start (w rest : string) :
  w <> "" -> Spec.solid w = true -> Spec.at_gap (w +:+ rest) = false.
Proof.
  destruct w as [|c w]; [done|]. intros _. cbn [Spec.solid].
  rewrite append_cons. cbn [Spec.at_gap].
  by destruct (Spec.is_whitespace c).
Qed.

Lemma blank_app (g w rest : string) :
  Spec.blank (g +:+ w +:+ rest) = true ->
  w <> "" -> Spec.solid w = true -> False.
Proof.
  induction g as [|c g IH]; intros Hb Hne Hw.
  - destruct w as [|c w]; [done|].
    rewrite append_empty_l, append_cons in Hb.
    cbn [Spec.blank] in Hb. cbn [Spec.solid] in Hw.
    by destruct (Spec.is_whitespace c).
  - rewrite append_cons in Hb. cbn [Spec.blank] in Hb.
    apply andb_true_iff in Hb as [_ Hb]. by apply IH.
Qed.

(** A text has the tokens of one list only. *)
Lemma tokens_unique (text : string) (words words' : list string) :
  Spec.tokens text words -> Spec.tokens text words' -> words = words'.
Proof.
  intros H. revert words'.
  induction H as [gap Hg|gap word rest words Hg Hne Hw Hr Ht IH];
    intros words' H'.
  - inversion H' as [|gap' word' rest' ws' Hg' Hne' Hw' Hr' Ht' He]; [done|].
    subst. exfalso. by eapply blank_app.
  - inversion H' as [gap' Hg' He|gap' word' rest' ws' Hg' Hne' Hw' Hr' Ht' He].
    + subst. exfalso. by eapply blank_app.
    + subst.
      destruct (gap_prefix_unique gap' gap (word' +:+ rest') (word +:+ rest))
        as [-> He']; try done.
      { right. by apply solid_start. }
      { right. by apply solid_start. }
      destruct (token_prefix_unique word' word rest' rest) as [-> ->];
        try done.
      f_equal. by apply IH.
Qed.

Lemma lower_char_spec (c : ascii) :
  PyStr.lower_char c = Spec.lower_of Spec.upper_letters Spec.lower_letters c.
Proof. by destruct c as [[] [] [] [] [] [] [] []]; vm_compute. Qed.

(** [str.lower] puts every letter in lower case. *)
Lemma lower_spec (s : string) : PyStr.lower s = Spec.lower s.
Proof.
  induction s as [|c s IH]; [done|].
  cbn [PyStr.lower Spec.lower]. by rewrite lower_char_spec, IH.
Qed.

Lemma is_terminator_spec (c : ascii) :
  PyStr.is_terminator c = Spec.is_terminator c.
Proof. by destruct c as [[] [] [] [] [] [] [] []]. Qed.

Lemma count_runs_ext (p q : ascii -> bool) :
  (forall c, p c = q c) ->
  forall s prev, PyStr.count_runs p prev s = PyStr.count_runs q prev s.
Proof.
  intros Hpq. induction s as [|c s IH]; intros prev; [done|].
  cbn [PyStr.count_runs]. by rewrite Hpq, !IH.
Qed.

End StringFacts.

(** ** Rounding *)

Lemma div_half_even_nearest (n : Z) (d : positive) :
  Spec.nearest_even n (Zpos d) (PyFloat.div_half_even n d).
Proof.
  unfold Spec.nearest_even, PyFloat.div_half_even.
  pose proof (Z.div_mod n (Zpos d) ltac:(lia)) as Hn.
  pose proof (Z.mod_pos_bound n (Zpos d) ltac:(lia)) as Hr.
  set (q := n / Zpos d) in *. set (r := n mod Zpos d) in *.
  clearbody q r.
  destruct (Z.compare_spec (2 * r) (Zpos d)) as [He|Hl|Hg].
  - destruct (Z.even q) eqn:Hq.
    + split; [lia|done].
    + split; [lia|]. intros _. rewrite Z.even_add, Hq. done.
  - split; lia.
  - split; lia.
Qed.

(** [round] returns the rounded value the specification speaks of. *)
Lemma round_rounded (x : PyFloat.float) (nd : N) :
  Spec.rounded nd x (PyFloat.round x nd).
Proof.
  destruct x as [s| s | |s m e]; try done.
  cbn [Spec.rounded PyFloat.round].
  exists (PyFloat.scaled_digits m e nd). split; [|done].
  unfold PyFloat.scaled_digits.
  destruct e as [|p|k].
  - unfold Spec.nearest_even. change (Z.max 0 0) with 0.
    change (Z.max (- 0) 0) with 0. rewrite !Z.pow_0_r. split; lia.
  - unfold Spec.nearest_even.
    replace (Z.max (Zpos p) 0) with (Zpos p) by lia.
    replace (Z.max (- Zpos p) 0) with 0 by lia.
    rewrite Z.pow_0_r. split; lia.
  - replace (Z.max (Zneg k) 0) with 0 by lia.
    replace (Z.max (- Zneg k) 0) with (Zpos k) by lia.
    rewrite Z.pow_0_r, Z.mul_1_r.
    replace (2 ^ Zpos k) with (Zpos (2 ^ k)) by apply Pos2Z.inj_pow.
    apply div_half_even_nearest.
Qed.

(** The rounded value is unique. *)
Lemma nearest_even_unique (num den n n' : Z) :
  0 < den -> Spec.nearest_even num den n -> Spec.nearest_even num den n' ->
  n = n'.
Proof.
  unfold Spec.nearest_even. intros Hd [H1 H2] [H1' H2'].
  assert (Z.abs (n - n') <= 1) as Hc by nia.
  destruct (Z.eq_dec n n') as [|Hne]; [done|exfalso].
  assert (Z.abs (2 * num - 2 * n * den) = den) as He by nia.
  assert (Z.abs (2 * num - 2 * n' * den) = den) as He' by nia.
  specialize (H2 He). specialize (H2' He').
  assert (n' = n + 1 \/ n' = n - 1) as [->| ->] by lia.
  - rewrite Z.even_add, H2 in H2'. done.
  - rewrite Z.even_sub, H2 in H2'. done.
Qed.

Lemma rounded_unique (nd : N) (x r r' : spec_float) :
  Spec.rounded nd x r -> Spec.rounded nd x r' -> r = r'.
Proof.
  destruct x as [s| s | |s m e]; cbn [Spec.rounded]; try congruence.
  intros (n & Hn & ->) (n' & Hn' & ->).
  assert (0 < 2 ^ Z.max (- e) 0) as Hd by (apply Z.pow_pos_nonneg; lia).
  by rewrite (nearest_even_unique _ _ _ _ Hd Hn Hn').
Qed.

(** ** The readability scorer *)

(** C4: [count_syllables] lower-cases the word and counts its maximal
    runs of the vowels a, e, i, o, u and y; when the lower-cased word
    ends in [e], that is when it is some text followed by [e], the
    result is the count less one, otherwise it is the count, and in both
    cases it is raised to 1 when it is less. *)
Theorem count_syllables_spec (word : string) :
  let w := Spec.lower word in
  let runs := Z.of_nat (PyStr.count_runs is_vowel_char false w) in
  ((exists s, w = s +:+ "e") ->
   ReadabilityScorer.count_syllables word = Z.max (runs - 1) 1)
  /\ (~ (exists s, w = s +:+ "e") ->
      ReadabilityScorer.count_syllables word = Z.max runs 1)
  /\ 1 <= ReadabilityScorer.count_syllables word.
Proof.
  intros w runs.
  unfold ReadabilityScorer.count_syllables. rewrite vowel_loop_runs.
  rewrite lower_spec. fold w. fold runs.
  pose proof (endswith_char_suffix "e" w) as He.
  destruct (PyStr.endswith_char w "e").
  - split; [done|]. split; [|lia]. intros Hn. destruct Hn. by apply He.
  - split; [|split; [done|lia]].
    intros Hs. apply He in Hs. done.
Qed.

(** "AWESOME" has the four runs a, e, o, e and ends in e; "the" has one
    run and ends in e, and still counts 1; "Python" has the two runs y
    and o. *)
Lemma count_syllables_spec_witness :
  ReadabilityScorer.count_syllables "AWESOME" = 3
  /\ ReadabilityScorer.count_syllables "the" = 1
  /\ ReadabilityScorer.count_syllables "Python" = 2.
Proof.
  split; [|split].
  - destruct (count_syllables_spec "AWESOME") as (H & _ & _).
    apply H. by exists "awesom".
  - destruct (count_syllables_spec "the") as (H & _ & _).
    apply H. by exists "th".
  - destruct (count_syllables_spec "Python") as (_ & H & _).
    apply H. intros He. apply endswith_char_suffix in He. discriminate He.
Defined.

Lemma sentence_count_runs (text : string) :
  ReadabilityScorer.sentence_count text
  = S (PyStr.count_runs PyStr.is_terminator false text).
Proof. apply re_split_from_length. Qed.

Lemma flesch_kincaid_total (text : string) :
  ReadabilityScorer.calculate_flesch_kincaid text
  = Some (flesch_kincaid_value text).
Proof.
  unfold ReadabilityScorer.calculate_flesch_kincaid, flesch_kincaid_value.
  unfold ReadabilityScorer.syllable_sum. rewrite syllable_sum_from.
  rewrite Z.add_0_l, sentence_count_runs.
  set (r := PyStr.count_runs _ _ _).
  destruct (length (PyStr.split text)) as [|n] eqn:Hw.
  - change (Z.of_nat 0 =? 0) with true. by rewrite orb_true_r.
  - replace (Z.of_nat (S r) =? 0) with false
      by (symmetry; apply Z.eqb_neq; lia).
    replace (Z.of_nat (S n) =? 0) with false
      by (symmetry; apply Z.eqb_neq; lia).
    simpl orb. cbv iota.
    unfold PyFloat.truediv, grade_formula.
    replace (Z.of_nat (S r)) with (Zpos (Pos.of_nat (S r))) by lia.
    replace (Z.of_nat (S n)) with (Zpos (Pos.of_nat (S n))) by lia.
    done.
Qed.

Lemma of_ratio_quotient (a : Z) (b : positive) :
  PyFloat.of_ratio a b = Spec.quotient a b.
Proof. by destruct a. Qed.

Lemma of_ratio_decimal (n d : positive) :
  PyFloat.of_ratio (Zpos n) d = Spec.decimal n d.
Proof. done. Qed.

Lemma grade_formula_spec (words sentences : positive) (syllables : Z) :
  grade_formula words sentences syllables
  = PyFloat.round (Spec.grade words sentences syllables) 2.
Proof.
  unfold grade_formula, Spec.grade.
  unfold ReadabilityScorer.c_0_39, ReadabilityScorer.c_11_8,
    ReadabilityScorer.c_15_59.
  by rewrite !of_ratio_decimal, !of_ratio_quotient.
Qed.

(** C3: [calculate_flesch_kincaid] takes the whitespace-split tokens
    of the text as its words, as many as the text has runs of
    characters that are not whitespace, and counts its sentences, the
    segments between the runs of terminators, of which there is at
    least one.  For a text without words it returns the integer 0;
    otherwise it returns
    [0.39 * (words / sentences) + 11.8 * (syllables / words) - 15.59],
    computed in binary64 arithmetic and rounded to 2 decimals, where
    [syllables] is the sum of the syllable counts of the words. *)
Theorem calculate_flesch_kincaid_spec (text : string) :
  let words := PyStr.split text in
  let sentences := length (PyStr.re_split_terminators text) in
  let syllables := Z_sum (map ReadabilityScorer.count_syllables words) in
  Spec.tokens text words
  /\ length words = Spec.word_count text
  /\ sentences = Spec.sentence_count text
  /\ (1 <= sentences)%nat
  /\ (length words = O ->
      ReadabilityScorer.calculate_flesch_kincaid text = Some (NInt 0))
  /\ (length words <> O ->
      exists grade_level,
        ReadabilityScorer.calculate_flesch_kincaid text
        = Some (NFloat grade_level)
        /\ Spec.rounded 2
             (Spec.grade (Pos.of_nat (length words))
                (Pos.of_nat (Spec.sentence_count text)) syllables)
             grade_level).
Proof.
  intros words sentences syllables.
  pose proof (sentence_count_runs text) as Hs.
  unfold ReadabilityScorer.sentence_count in Hs. fold sentences in Hs.
  rewrite (count_runs_ext _ _ is_terminator_spec) in Hs.
  fold (Spec.sentence_count text) in Hs.
  split; [apply split_tokens|].
  split; [apply split_word_count|]. split; [done|].
  split; [rewrite Hs; unfold Spec.sentence_count; lia|].
  rewrite flesch_kincaid_total. unfold flesch_kincaid_value.
  fold words. unfold ReadabilityScorer.sentence_count.
  fold sentences. rewrite Hs. fold syllables.
  destruct (length words) as [|n]; split; try done.
  intros _. rewrite grade_formula_spec. eexists. split; [reflexivity|].
  exact (round_rounded _ 2).
Qed.


(** A text of blanks has no words and the grade 0; the sample text has
    the grade 0.39 * (10 / 3) + 11.8 * (16 / 10) - 15.59, rounded to
    4.59. *)
Lemma calculate_flesch_kincaid_spec_witness :
  ReadabilityScorer.calculate_flesch_kincaid "   " = Some (NInt 0)
  /\ exists grade_level,
       ReadabilityScorer.calculate_flesch_kincaid glasses_text
       = Some (NFloat grade_level)
       /\ Spec.rounded 2 (Spec.grade 10 3 16) grade_level
       /\ grade_level = Spec.decimal 459 100.
Proof.
  split.
  - destruct (calculate_flesch_kincaid_spec "   ")
      as (_ & _ & _ & _ & H & _).
    apply H. reflexivity.
  - destruct (calculate_flesch_kincaid_spec glasses_text)
      as (_ & _ & _ & _ & _ & H).
    destruct H as (g & Hg & Hr).
    { intros Hl. vm_compute in Hl. discriminate Hl. }
    assert (Pos.of_nat (length (PyStr.split glasses_text)) = 10%positive)
      as Hw by (vm_compute; reflexivity).
    assert (Pos.of_nat (Spec.sentence_count glasses_text) = 3%positive)
      as Hs by (vm_compute; reflexivity).
    assert (Z_sum (map ReadabilityScorer.count_syllables
                     (PyStr.split glasses_text)) = 16)
      as Hy by (vm_compute; reflexivity).
    rewrite Hw, Hs, Hy in Hr.
    exists g. split; [exact Hg|]. split; [exact Hr|].
    vm_compute in Hg. injection Hg as <-. vm_compute. reflexivity.
Defined.

(** ** Dictionaries and the store *)

Section DictFacts.

Lemma get_set_eq k v (d : dict) : Dict.get k (Dict.set k v d) = Some v.
Proof.
  induction d as [|[k' v'] d IH]; simpl.
  - by rewrite String.eqb_refl.
  - destruct (String.eqb k' k) eqn:E; simpl; by rewrite E.
Qed.

Lemma get_set_ne k k' v (d : dict) :
  k <> k' -> Dict.get k' (Dict.set k v d) = Dict.get k' d.
Proof.
  intros Hne. induction d as [|[k0 v0] d IH]; simpl.
  - destruct (String.eqb k k') eqn:E; [by apply String.eqb_eq in E|done].
  - destruct (String.eqb k0 k) eqn:E; simpl; [|by rewrite IH].
    apply String.eqb_eq in E. subst k0.
    destruct (String.eqb k k') eqn:E'; [by apply String.eqb_eq in E'|done].
Qed.

Lemma set_same k v (d : dict) : Dict.get k d = Some v -> Dict.set k v d = d.
Proof.
  induction d as [|[k0 v0] d IH]; simpl; [done|].
  destruct (String.eqb k0 k) eqn:E.
  - by intros [= ->].
  - intros H. by rewrite IH.
Qed.

Lemma get_set_is_Some k k' v (d : dict) :
  is_Some (Dict.get k' d) -> is_Some (Dict.get k' (Dict.set k v d)).
Proof.
  intros H. destruct (decide (k = k')) as [->|Hne].
  - rewrite get_set_eq. by eexists.
  - by rewrite get_set_ne.
Qed.

Lemma dict_grows_refl (d : dict) : dict_grows d d.
Proof. by split. Qed.

Lemma dict_grows_trans (d1 d2 d3 : dict) :
  dict_grows d1 d2 -> dict_grows d2 d3 -> dict_grows d1 d3.
Proof.
  intros [K1 O1 N1] [K2 O2 N2]. split.
  - auto.
  - intros k Hk. by rewrite O2, O1.
  - auto.
Qed.

Lemma is_written_ne k k' :
  is_written k = true -> is_written k' = false -> k <> k'.
Proof. intros H H' ->. congruence. Qed.

Lemma dict_grows_set k v (d : dict) :
  is_written k = true ->
  (k = "enrichment" -> Dict.get k d = None \/ Dict.get k d = Some v) ->
  dict_grows d (Dict.set k v d).
Proof.
  intros Hk He. split.
  - intros k'. apply get_set_is_Some.
  - intros k' Hk'. apply get_set_ne. by eapply is_written_ne.
  - intros w Hw. destruct (decide (k = "enrichment")) as [->|Hne].
    + destruct (He eq_refl) as [H|H]; rewrite H in Hw; [done|].
      injection Hw as ->. apply get_set_eq.
    + by rewrite get_set_ne.
Qed.

Lemma is_namespace_mono (h h' : list dict) o :
  (length h <= length h')%nat ->
  is_namespace h o = true -> is_namespace h' o = true.
Proof.
  intros Hlen. destruct o as [[]|]; simpl; try done.
  rewrite !Nat.ltb_lt. lia.
Qed.

Lemma is_ref_mono (h h' : list dict) o :
  (length h <= length h')%nat ->
  is_ref h o = true -> is_ref h' o = true.
Proof.
  intros Hlen. destruct o as [[]|]; simpl; try done.
  rewrite !Nat.ltb_lt. lia.
Qed.

Lemma store_grows_refl (h : list dict) : store_grows h h.
Proof.
  intros l d H. exists d. split; [done|].
  split; [apply dict_grows_refl|done].
Qed.

Lemma store_grows_trans (h1 h2 h3 : list dict) :
  store_grows h1 h2 -> store_grows h2 h3 -> store_grows h1 h3.
Proof.
  intros H12 H23 l d Hl.
  destruct (H12 l d Hl) as (d2 & Hl2 & G12 & W12 & R12).
  destruct (H23 l d2 Hl2) as (d3 & Hl3 & G23 & W23 & R23).
  exists d3. split; [done|]. split; [by eapply dict_grows_trans|].
  split; [auto|]. intros k Hk. by apply R23, R12.
Qed.

Lemma store_grows_app (h ext : list dict) : store_grows h (h ++ ext).
Proof.
  intros l d Hl. exists d. split; [by apply lookup_app_l_Some|].
  split; [apply dict_grows_refl|].
  split; [apply is_namespace_mono|intros k; apply is_ref_mono];
    rewrite length_app; lia.
Qed.

Lemma store_grows_insert_app (h ext : list dict) l (d d' : dict) :
  h !! l = Some d -> dict_grows d d' ->
  (is_namespace h (Dict.get "enrichment" d) = true ->
   is_namespace (h ++ ext) (Dict.get "enrichment" d') = true) ->
  (forall k, is_ref h (Dict.get k d) = true ->
   is_ref (h ++ ext) (Dict.get k d') = true) ->
  store_grows h (<[l := d']> h ++ ext).
Proof.
  intros Hl G W R l0 d0 Hl0.
  assert (Hlen : length (<[l := d']> h ++ ext) = length (h ++ ext))
    by by rewrite !length_app, length_insert.
  destruct (decide (l = l0)) as [<-|Hne].
  - exists d'. split.
    { apply lookup_app_l_Some, list_lookup_insert_eq.
      by eapply lookup_lt_Some. }
    replace d0 with d by congruence. split; [done|]. split.
    + intros W0. generalize (W W0). apply is_namespace_mono.
      by rewrite Hlen.
    + intros k Hk. generalize (R k Hk). apply is_ref_mono. by rewrite Hlen.
  - exists d0. split.
    { apply lookup_app_l_Some. by rewrite list_lookup_insert_ne. }
    split; [apply dict_grows_refl|].
    split; [apply is_namespace_mono|intros k; apply is_ref_mono];
      rewrite Hlen, length_app; lia.
Qed.

Lemma well_formed_grows (h h' : list dict) l :
  store_grows h h' -> well_formed h l = true -> well_formed h' l = true.
Proof.
  intros G. unfold well_formed.
  destruct (h !! l) as [d|] eqn:Hl; [|done].
  destruct (G _ _ Hl) as (d' & -> & [K O N] & W & _).
  rewrite !(O "setup"), !(O "punchline") by done.
  intros [-> Hn]%andb_prop. by rewrite W.
Qed.

Lemma store_grows_length (h h' : list dict) :
  store_grows h h' -> (length h <= length h')%nat.
Proof.
  intros G. destruct (decide (length h = 0)%nat) as [->|Hne]; [lia|].
  destruct (lookup_lt_is_Some_2 h (length h - 1)) as [d Hd]; [lia|].
  destruct (G _ _ Hd) as (d' & Hd' & _).
  apply lookup_lt_Some in Hd'. lia.
Qed.

End DictFacts.

(** ** The two closing statements of [enrich] *)

Section AddEnrichment.

Lemma load_app (h ext : list dict) out l (d : dict) :
  h !! l = Some d ->
  load l (mkState (h ++ ext) out) = Ok d (mkState (h ++ ext) out).
Proof.
  intros H. unfold load; simpl. by rewrite (lookup_app_l_Some _ _ _ _ H).
Qed.

(** The record has no [enrichment] yet: the new dictionary becomes its
    namespace. *)
Lemma add_enrichment_fresh (h : list dict) out joke name rhs fields d :
  h !! joke = Some d ->
  Dict.get "enrichment" d = None ->
  pure_rhs rhs fields ->
  add_enrichment joke name rhs (mkState h out) =
  Ok joke
    (mkState
       (<[joke := Dict.set "enrichment" (VRef (length h)) d]> h
        ++ [[(name, VRef (S (length h)))]; fields])
       out).
Proof.
  intros Hj He Hr.
  pose proof (lookup_lt_Some _ _ _ Hj) as Hlt.
  unfold add_enrichment, bind, alloc, dict_get, setitem, getitem, bind, ret;
    simpl.
  rewrite (load_app _ _ _ _ _ Hj); simpl. rewrite He.
  rewrite (load_app _ _ _ _ _ Hj); simpl.
  rewrite Hr; simpl.
  unfold load; simpl.
  rewrite lookup_app_l by (rewrite length_insert, length_app; simpl; lia).
  rewrite list_lookup_insert_eq by (rewrite length_app; simpl; lia).
  rewrite get_set_eq; simpl.
  unfold setitem, bind, load; simpl.
  rewrite lookup_app_l by (rewrite length_insert, length_app; simpl; lia).
  rewrite list_lookup_insert_ne by lia.
  rewrite list_lookup_middle by done. simpl.
  rewrite length_insert, length_app; simpl.
  replace (length h + 1)%nat with (S (length h)) by lia.
  do 2 f_equal.
  rewrite (insert_app_l h) by done.
  rewrite <- app_assoc. simpl.
  rewrite insert_app_r_alt by (rewrite length_insert; lia).
  rewrite length_insert, Nat.sub_diag. done.
Qed.

(** The record has an [enrichment] dictionary: the block is written into
    that object, whoever else refers to it. *)
Lemma add_enrichment_shared (h : list dict) out joke name rhs fields d le de :
  h !! joke = Some d ->
  Dict.get "enrichment" d = Some (VRef le) ->
  h !! le = Some de ->
  pure_rhs rhs fields ->
  add_enrichment joke name rhs (mkState h out) =
  Ok joke
    (mkState
       (<[le := Dict.set name (VRef (S (length h))) de]> h ++ [[]; fields])
       out).
Proof.
  intros Hj He Hle Hr.
  pose proof (lookup_lt_Some _ _ _ Hle) as Hlt.
  unfold add_enrichment, bind, alloc, dict_get, setitem, getitem, bind, ret;
    simpl.
  rewrite (load_app _ _ _ _ _ Hj); simpl. rewrite He.
  rewrite (load_app _ _ _ _ _ Hj); simpl.
  rewrite (set_same _ _ _ He).
  rewrite (list_insert_id _ _ _ (lookup_app_l_Some _ _ _ _ Hj)).
  rewrite Hr; simpl.
  replace ((h ++ [[]]) ++ [fields]) with (h ++ [[]; fields])
    by by rewrite <- app_assoc.
  rewrite (load_app _ _ _ _ _ Hj); simpl. rewrite He; simpl.
  unfold setitem, bind. rewrite (load_app _ _ _ _ _ Hle); simpl.
  rewrite length_app; simpl.
  replace (length h + 1)%nat with (S (length h)) by lia.
  by rewrite insert_app_l.
Qed.

Lemma enriched_fresh (h : list dict) joke name fields d :
  h !! joke = Some d ->
  Dict.get "enrichment" d = None ->
  name <> "enrichment" ->
  enriched name fields joke h
    (<[joke := Dict.set "enrichment" (VRef (length h)) d]> h
     ++ [[(name, VRef (S (length h)))]; fields]).
Proof.
  intros Hj He Hname.
  pose proof (lookup_lt_Some _ _ _ Hj) as Hlt.
  set (d' := Dict.set "enrichment" (VRef (length h)) d).
  set (h1 := <[joke := d']> h).
  assert (Hlen : length h1 = length h) by apply length_insert.
  assert (Hj' : (h1 ++ [[(name, VRef (S (length h)))]; fields]) !! joke
                = Some d').
  { apply lookup_app_l_Some. by apply list_lookup_insert_eq. }
  assert (Hn : (h1 ++ [[(name, VRef (S (length h)))]; fields]) !! length h
               = Some [(name, VRef (S (length h)))]).
  { by apply list_lookup_middle. }
  assert (Hb : (h1 ++ [[(name, VRef (S (length h)))]; fields])
                 !! S (length h) = Some fields).
  { rewrite lookup_app_r by lia. by rewrite Hlen, Nat.sub_succ_l, Nat.sub_diag. }
  assert (Hf : field (h1 ++ [[(name, VRef (S (length h)))]; fields]) joke
                 "enrichment" = Some (VRef (length h))).
  { unfold field. rewrite Hj'. apply get_set_eq. }
  split.
  - unfold block_of, namespace_get, enrichment_of. rewrite Hf. simpl.
    rewrite Hn. simpl. by rewrite String.eqb_refl.
  - intros k Hk. unfold namespace_get, enrichment_of. rewrite Hf. simpl.
    rewrite Hn. unfold field. rewrite Hj, He. simpl.
    destruct (String.eqb name k) eqn:E; [|done].
    apply String.eqb_eq in E. by subst.
  - intros k Hk _. unfold field. rewrite Hj', Hj. by apply get_set_ne.
  - intros l Hl _ Hlt'. rewrite lookup_app_l by lia.
    by apply list_lookup_insert_ne.
  - apply (store_grows_insert_app h _ joke d d' Hj).
    + apply dict_grows_set; [done|]. intros _. by left.
    + intros _. unfold d'. rewrite get_set_eq. simpl.
      apply Nat.ltb_lt. rewrite length_app. simpl. lia.
    + intros k. unfold d'. destruct (decide ("enrichment" = k)) as [<-|Hne].
      * by rewrite He.
      * rewrite get_set_ne by done. apply is_ref_mono.
        rewrite length_app. lia.
Qed.

Lemma enriched_shared (h : list dict) joke name fields d le de :
  h !! joke = Some d ->
  Dict.get "enrichment" d = Some (VRef le) ->
  h !! le = Some de ->
  name <> "enrichment" ->
  is_written name = true ->
  enriched name fields joke h
    (<[le := Dict.set name (VRef (S (length h))) de]> h ++ [[]; fields]).
Proof.
  intros Hj He Hle Hname Hw.
  pose proof (lookup_lt_Some _ _ _ Hj) as Hlt.
  pose proof (lookup_lt_Some _ _ _ Hle) as Hlt'.
  set (de' := Dict.set name (VRef (S (length h))) de).
  set (h1 := <[le := de']> h).
  assert (Hlen : length h1 = length h) by apply length_insert.
  assert (Hle' : (h1 ++ [[]; fields]) !! le = Some de').
  { apply lookup_app_l_Some. by apply list_lookup_insert_eq. }
  assert (Hb : (h1 ++ [[]; fields]) !! S (length h) = Some fields).
  { rewrite lookup_app_r by lia. by rewrite Hlen, Nat.sub_succ_l, Nat.sub_diag. }
  assert (Hf : field (h1 ++ [[]; fields]) joke "enrichment"
               = Some (VRef le)).
  { unfold field. destruct (decide (le = joke)) as [->|Hne].
    - rewrite Hle'. unfold de'. rewrite get_set_ne by done. congruence.
    - rewrite lookup_app_l by lia. unfold h1.
      rewrite list_lookup_insert_ne by done. by rewrite Hj. }
  assert (Hf0 : field h joke "enrichment" = Some (VRef le)).
  { unfold field. by rewrite Hj. }
  split.
  - unfold block_of, namespace_get, enrichment_of. rewrite Hf. simpl.
    rewrite Hle'. unfold de'. rewrite get_set_eq. simpl. done.
  - intros k Hk. unfold namespace_get, enrichment_of. rewrite Hf, Hf0. simpl.
    rewrite Hle', Hle. by apply get_set_ne.
  - intros k Hk Hk'. unfold field at 1. destruct (decide (le = joke)) as [->|Hne].
    + rewrite Hle'. unfold field, de'. rewrite Hj.
      replace de with d by congruence. apply get_set_ne.
      destruct Hk' as [Hk'|Hk']; [done|]. by rewrite Hf0 in Hk'.
    + rewrite lookup_app_l by lia. unfold h1.
      rewrite list_lookup_insert_ne by done. done.
  - intros l Hl Hl' Hl''. rewrite lookup_app_l by lia.
    apply list_lookup_insert_ne. intros ->. by rewrite Hf0 in Hl'.
  - apply (store_grows_insert_app h _ le de de' Hle).
    + apply dict_grows_set; [done|]. by intros ->.
    + unfold de'. rewrite get_set_ne by done.
      apply is_namespace_mono. rewrite length_app. lia.
    + intros k. unfold de'. destruct (decide (name = k)) as [<-|Hne].
      * intros _. rewrite get_set_eq. simpl.
        apply Nat.ltb_lt. rewrite length_app. simpl. lia.
      * rewrite get_set_ne by done. apply is_ref_mono.
        rewrite length_app. lia.
Qed.

(** Both cases at once, for a record whose [enrichment] field is absent
    or a dictionary. *)
Lemma add_enrichment_ok (h : list dict) joke name rhs fields d :
  h !! joke = Some d ->
  is_namespace h (Dict.get "enrichment" d) = true ->
  pure_rhs rhs fields ->
  name <> "enrichment" ->
  is_written name = true ->
  exists h',
    (forall out,
       add_enrichment joke name rhs (mkState h out) = Ok joke (mkState h' out))
    /\ enriched name fields joke h h'.
Proof.
  intros Hj Hn Hr Hname Hw.
  destruct (Dict.get "enrichment" d) as [v|] eqn:He.
  - destruct v as [| | | | | |le]; try done. simpl in Hn.
    apply Nat.ltb_lt, lookup_lt_is_Some_2 in Hn as [de Hle].
    eexists. split.
    + intros out. by eapply add_enrichment_shared.
    + by eapply enriched_shared.
  - eexists. split.
    + intros out. by eapply add_enrichment_fresh.
    + by eapply enriched_fresh.
Qed.

End AddEnrichment.

(** ** Running one enricher on a well-formed record *)

Section Running.

Lemma bind_ok {A B} (m : M A) (k : A -> M B) st a st' :
  m st = Ok a st' -> bind m k st = k a st'.
Proof. intros H. unfold bind. by rewrite H. Qed.

Lemma dict_get_ok (h : list dict) out l k default (d : dict) :
  h !! l = Some d ->
  dict_get l k default (mkState h out) =
  Ok (match Dict.get k d with Some v => v | None => default end)
    (mkState h out).
Proof. intros H. unfold dict_get, bind, load; simpl. by rewrite H. Qed.

Lemma text_value (d : dict) k :
  is_text (Dict.get k d) = true ->
  match Dict.get k d with Some v => v | None => VStr "" end
  = VStr (text_field d k).
Proof.
  unfold text_field. by destruct (Dict.get k d) as [[]|].
Qed.

Lemma well_formed_inv (h : list dict) joke :
  well_formed h joke = true ->
  exists d, h !! joke = Some d
    /\ is_text (Dict.get "setup" d) = true
    /\ is_text (Dict.get "punchline" d) = true
    /\ is_namespace h (Dict.get "enrichment" d) = true.
Proof.
  unfold well_formed. destruct (h !! joke) as [d|]; [|done].
  intros [[H1 H2]%andb_prop H3]%andb_prop. by exists d.
Qed.

Lemma format_pair_text py_str (s1 s2 : string) st :
  format_pair py_str (VStr s1) (VStr s2) st = Ok (s1 +:+ " " +:+ s2) st.
Proof. done. Qed.

Ltac read_texts Hj Hs Hp :=
  erewrite bind_ok by apply (dict_get_ok _ _ _ _ _ _ Hj);
  rewrite (text_value _ _ Hs);
  erewrite bind_ok by apply (dict_get_ok _ _ _ _ _ _ Hj);
  rewrite (text_value _ _ Hp).

Lemma sentiment_enrich_ok tb_polarity tb_subjectivity py_str
  (h : list dict) joke d :
  h !! joke = Some d ->
  well_formed h joke = true ->
  let polarity := tb_polarity (full_text d) in
  exists h',
    (forall out,
       SentimentAnalyzer.enrich tb_polarity tb_subjectivity py_str joke
         (mkState h out) = Ok joke (mkState h' out))
    /\ enriched SentimentAnalyzer.name
         [("sentiment", VStr (SentimentAnalyzer.categorize polarity));
          ("polarity", VFloat (PyFloat.round polarity 3));
          ("subjectivity",
            VFloat (PyFloat.round (tb_subjectivity (full_text d)) 3));
          ("setup_polarity",
            VFloat (PyFloat.round (tb_polarity (text_field d "setup")) 3));
          ("punchline_polarity",
            VFloat (PyFloat.round (tb_polarity (text_field d "punchline")) 3))]
         joke h h'.
Proof.
  intros Hj (d0 & Hj0 & Hs & Hp & Hn)%well_formed_inv polarity.
  replace d0 with d in * by congruence.
  edestruct add_enrichment_ok as (h' & Hrun & Hen);
    [exact Hj|exact Hn| |..|exists h'; split; [|exact Hen]];
    [by intros st|done|done|].
  intros out. unfold SentimentAnalyzer.enrich.
  read_texts Hj Hs Hp.
  erewrite bind_ok by apply format_pair_text.
  apply Hrun.
Qed.

Lemma length_enrich_ok py_str (h : list dict) joke d :
  h !! joke = Some d ->
  well_formed h joke = true ->
  exists h',
    (forall out,
       JokeLengthClassifier.enrich py_str joke (mkState h out)
       = Ok joke (mkState h' out))
    /\ enriched JokeLengthClassifier.name
         [("word_count",
            VInt (Z.of_nat (length (PyStr.split (full_text d)))));
          ("character_count", VInt (Z.of_nat (String.length (full_text d))));
          ("length_category",
            VStr (JokeLengthClassifier.classify
                    (Z.of_nat (length (PyStr.split (full_text d))))));
          ("setup_word_count",
            VInt (Z.of_nat (length (PyStr.split (text_field d "setup")))));
          ("punchline_word_count",
            VInt (Z.of_nat
                    (length (PyStr.split (text_field d "punchline")))))]
         joke h h'.
Proof.
  intros Hj (d0 & Hj0 & Hs & Hp & Hn)%well_formed_inv.
  replace d0 with d in * by congruence.
  edestruct add_enrichment_ok as (h' & Hrun & Hen);
    [exact Hj|exact Hn| |..|exists h'; split; [|exact Hen]];
    [by intros st|done|done|].
  intros out. unfold JokeLengthClassifier.enrich.
  read_texts Hj Hs Hp.
  erewrite bind_ok by apply format_pair_text.
  apply Hrun.
Qed.

Lemma truediv_ratio (a : Z) (b : nat) (nd : N) st :
  b <> O ->
  (let! q := lift_div (PyFloat.truediv a (Z.of_nat b)) in
   ret (VFloat (PyFloat.round q nd))) st
  = Ok (rounded_ratio a b nd) st.
Proof.
  intros Hb. destruct b as [|b]; [done|].
  unfold PyFloat.truediv, rounded_ratio.
  replace (Z.of_nat (S b)) with (Zpos (Pos.of_nat (S b))) by lia.
  done.
Qed.

Lemma avg_word_length_ok (words : list string) st :
  ReadabilityScorer.avg_word_length words st
  = Ok (rounded_ratio (ReadabilityScorer.char_sum words) (length words) 2) st.
Proof.
  unfold ReadabilityScorer.avg_word_length.
  destruct words as [|w words]; [done|].
  replace (0 <? Z.of_nat (length (w :: words))) with true
    by (symmetry; apply Z.ltb_lt; simpl; lia).
  by apply truediv_ratio.
Qed.

Lemma keyword_density_ok (all : list string) (text : string) st :
  KeywordExtractor.keyword_density all text st
  = Ok (rounded_ratio (Z.of_nat (length all)) (length (PyStr.split text)) 3)
      st.
Proof.
  unfold KeywordExtractor.keyword_density.
  destruct (PyStr.split text) as [|w words] eqn:E; [done|].
  by apply truediv_ratio.
Qed.

Lemma readability_enrich_ok py_str (h : list dict) joke d :
  h !! joke = Some d ->
  well_formed h joke = true ->
  let text := full_text d in
  exists h',
    (forall out,
       ReadabilityScorer.enrich py_str joke (mkState h out)
       = Ok joke (mkState h' out))
    /\ enriched ReadabilityScorer.name
         [("flesch_kincaid_grade",
            value_of_number (flesch_kincaid_value text));
          ("word_count", VInt (Z.of_nat (length (PyStr.split text))));
          ("sentence_count",
            VInt (Z.of_nat (ReadabilityScorer.sentence_count text)));
          ("average_word_length",
            rounded_ratio (ReadabilityScorer.char_sum (PyStr.split text))
              (length (PyStr.split text)) 2);
          ("readability_level",
            VStr (ReadabilityScorer._categorize_readability
                    (flesch_kincaid_value text)))]
         joke h h'.
Proof.
  intros Hj (d0 & Hj0 & Hs & Hp & Hn)%well_formed_inv text.
  replace d0 with d in * by congruence.
  edestruct add_enrichment_ok as (h' & Hrun & Hen);
    [exact Hj|exact Hn| |..|exists h'; split; [|exact Hen]];
    [by intros st|done|done|].
  intros out. unfold ReadabilityScorer.enrich.
  read_texts Hj Hs Hp.
  erewrite bind_ok by apply format_pair_text.
  fold (full_text d). fold text.
  rewrite flesch_kincaid_total.
  erewrite bind_ok by done.
  erewrite bind_ok by apply avg_word_length_ok.
  apply Hrun.
Qed.

(** An enrichment that starts after other objects were allocated is an
    enrichment of the store before them. *)
Lemma enriched_after_alloc (h ext h' : list dict) name fields joke d :
  h !! joke = Some d ->
  is_namespace h (Dict.get "enrichment" d) = true ->
  enriched name fields joke (h ++ ext) h' ->
  enriched name fields joke h h'.
Proof.
  intros Hj Hn [B S F R G].
  pose proof (lookup_lt_Some _ _ _ Hj) as Hlt.
  assert (Hf : forall k, field (h ++ ext) joke k = field h joke k).
  { intros k. unfold field. by rewrite (lookup_app_l_Some _ _ _ _ Hj), Hj. }
  assert (Hns : forall k,
    namespace_get (h ++ ext) joke k = namespace_get h joke k).
  { intros k. unfold namespace_get, enrichment_of. rewrite Hf.
    unfold field. rewrite Hj.
    destruct (Dict.get "enrichment" d) as [[| | | | | |le]|]; try done.
    simpl in *. apply Nat.ltb_lt in Hn. by rewrite lookup_app_l. }
  split.
  - done.
  - intros k Hk. by rewrite S, Hns.
  - intros k Hk Hk'. rewrite F, Hf; [done|done|]. by rewrite Hf.
  - intros l Hl Hl' Hl''. rewrite R.
    + by apply lookup_app_l.
    + done.
    + by rewrite Hf.
    + rewrite length_app. lia.
  - eapply store_grows_trans; [apply store_grows_app|exact G].
Qed.

Lemma keyword_enrich_ok (h : list dict) joke d :
  h !! joke = Some d ->
  well_formed h joke = true ->
  let text := lower_text d in
  let found := KeywordExtractor.find_keywords text in
  let all := KeywordExtractor.all_keywords found in
  exists h',
    (forall out,
       KeywordExtractor.enrich joke (mkState h out)
       = Ok joke (mkState h' out))
    /\ enriched KeywordExtractor.name
         [("keywords_by_category", VRef (length h));
          ("top_keywords",
            VList (map VStr (KeywordExtractor.top_keywords all)));
          ("total_keywords", VInt (Z.of_nat (length all)));
          ("keyword_density",
            rounded_ratio (Z.of_nat (length all))
              (length (PyStr.split text)) 3)]
         joke h h'
    /\ h' !! length h = Some (KeywordExtractor.found_dict found).
Proof.
  intros Hj (d0 & Hj0 & Hs & Hp & Hn)%well_formed_inv text found all.
  replace d0 with d in * by congruence.
  pose proof (lookup_lt_Some _ _ _ Hj) as Hlt.
  set (fd := KeywordExtractor.found_dict found).
  destruct (add_enrichment_ok (h ++ [fd]) joke KeywordExtractor.name
    (let! density := KeywordExtractor.keyword_density all text in
     ret [("keywords_by_category", VRef (length h));
          ("top_keywords",
            VList (map VStr (KeywordExtractor.top_keywords all)));
          ("total_keywords", VInt (Z.of_nat (length all)));
          ("keyword_density", density)])
    [("keywords_by_category", VRef (length h));
     ("top_keywords", VList (map VStr (KeywordExtractor.top_keywords all)));
     ("total_keywords", VInt (Z.of_nat (length all)));
     ("keyword_density",
       rounded_ratio (Z.of_nat (length all)) (length (PyStr.split text)) 3)]
    d) as (h' & Hrun & Hen).
  - by apply lookup_app_l_Some.
  - revert Hn. apply is_namespace_mono. rewrite length_app. lia.
  - intros st. by erewrite bind_ok by apply keyword_density_ok.
  - done.
  - done.
  - exists h'. split; [|split].
    + intros out. unfold KeywordExtractor.enrich.
      erewrite bind_ok by apply (dict_get_ok _ _ _ _ _ _ Hj).
      rewrite (text_value _ _ Hs). erewrite bind_ok by done.
      erewrite bind_ok by apply (dict_get_ok _ _ _ _ _ _ Hj).
      rewrite (text_value _ _ Hp). erewrite bind_ok by done.
      fold (lower_text d). fold text. fold found. fold all.
      erewrite bind_ok by done. apply Hrun.
    + by eapply enriched_after_alloc.
    + rewrite (en_frame _ _ _ _ _ Hen).
      * by apply list_lookup_middle.
      * lia.
      * unfold field. rewrite (lookup_app_l_Some _ _ _ _ Hj).
        intros He. rewrite He in Hn. simpl in Hn.
        apply Nat.ltb_lt in Hn. lia.
      * rewrite length_app. simpl. lia.
Qed.

End Running.

(** ** The loops of the keyword extractor *)

Section KeywordLoops.

Variable hit : string -> bool.

Lemma inner_loop_filter category (keywords : list string) :
  forall f : KeywordExtractor.found,
  fold_left
    (fun f keyword =>
       if hit keyword then KeywordExtractor.append category keyword f else f)
    keywords f
  = fold_left (fun f keyword => KeywordExtractor.append category keyword f)
      (List.filter hit keywords) f.
Proof.
  induction keywords as [|kw keywords IH]; intros f; simpl; [done|].
  rewrite IH. by destruct (hit kw).
Qed.

Lemma append_at category keyword (pre post : KeywordExtractor.found) l :
  category ∉ map fst pre ->
  KeywordExtractor.append category keyword (pre ++ (category, l) :: post)
  = pre ++ (category, l ++ [keyword]) :: post.
Proof.
  induction pre as [|[c l0] pre IH]; simpl; intros Hnot.
  - by rewrite String.eqb_refl.
  - apply not_elem_of_cons in Hnot as [Hne Hnot].
    destruct (String.eqb c category) eqn:E.
    + apply String.eqb_eq in E. by subst.
    + by rewrite IH.
Qed.

Lemma append_all category (keywords : list string) :
  forall (pre post : KeywordExtractor.found) l,
  category ∉ map fst pre ->
  fold_left (fun f keyword => KeywordExtractor.append category keyword f)
    keywords (pre ++ (category, l) :: post)
  = pre ++ (category, l ++ keywords) :: post.
Proof.
  induction keywords as [|kw keywords IH]; intros pre post l Hnot; simpl.
  - by rewrite app_nil_r.
  - rewrite append_at by done. rewrite IH by done.
    by rewrite <- app_assoc.
Qed.

Lemma outer_loop_filter (todo : list (string * list string)) :
  forall done_ : KeywordExtractor.found,
  NoDup (map fst done_ ++ map fst todo) ->
  fold_left
    (fun f '(category, keywords) =>
       fold_left
         (fun f keyword =>
            if hit keyword
            then KeywordExtractor.append category keyword f else f)
         keywords f)
    todo (done_ ++ map (fun '(category, _) => (category, [])) todo)
  = done_ ++ map (fun '(category, keywords) =>
                    (category, List.filter hit keywords)) todo.
Proof.
  induction todo as [|[c kws] todo IH]; intros done_ Hnd; simpl; [done|].
  rewrite inner_loop_filter, append_all.
  - simpl.
    replace (done_ ++ (c, List.filter hit kws)
               :: map (fun '(category, _) => (category, [])) todo)
      with ((done_ ++ [(c, List.filter hit kws)])
              ++ map (fun '(category, _) => (category, [])) todo)
      by by rewrite <- app_assoc.
    rewrite IH.
    + by rewrite <- app_assoc.
    + rewrite map_app. simpl. by rewrite <- app_assoc.
  - simpl in Hnd. apply NoDup_app in Hnd as (_ & Hd & _).
    intros Hin. apply (Hd _ Hin). by left.
Qed.

End KeywordLoops.

Lemma find_keywords_found_in (text : string) :
  KeywordExtractor.find_keywords text = found_in text.
Proof.
  unfold KeywordExtractor.find_keywords, found_in.
  apply (outer_loop_filter (fun kw => PyStr.contains kw text)
           KeywordExtractor.programming_keywords []).
  compute_done.
Qed.

(** ** [Counter] and [most_common] *)

Section CounterFacts.

Lemma insert_desc_perm x (l : Counter.t) :
  Permutation (Counter.insert_desc x l) (x :: l).
Proof.
  induction l as [|y l IH]; simpl; [done|].
  destruct (snd x <? snd y)%nat; [|done].
  rewrite IH. apply perm_swap.
Qed.

Lemma sorted_desc_perm (c : Counter.t) :
  Permutation (Counter.sorted_desc c) c.
Proof.
  induction c as [|x c IH]; simpl; [done|].
  by rewrite insert_desc_perm, IH.
Qed.

Lemma by_count_le before x y : by_count before x y -> (snd y <= snd x)%nat.
Proof. intros [H|[H _]]; lia. Qed.

Lemma insert_desc_sorted before x (l : Counter.t) :
  StronglySorted (by_count before) l ->
  Forall (before x) l ->
  StronglySorted (by_count before) (Counter.insert_desc x l).
Proof.
  induction l as [|y l IH]; simpl; intros Hs Hb.
  - by repeat constructor.
  - apply StronglySorted_inv in Hs as [Hs Hy].
    apply Forall_cons in Hb as [Hxy Hb].
    destruct (snd x <? snd y)%nat eqn:E.
    + apply Nat.ltb_lt in E. constructor; [by apply IH|].
      rewrite insert_desc_perm. constructor; [by left|done].
    + apply Nat.ltb_ge in E. constructor; [by constructor|].
      constructor.
      * destruct (decide (snd y = snd x)) as [Heq|Hne];
          [right; by split|left; lia].
      * rewrite Forall_forall in Hy, Hb |- *. intros z Hz.
        pose proof (by_count_le _ _ _ (Hy z Hz)).
        destruct (decide (snd z = snd x)) as [Heq|Hne];
          [right; split; [done|by apply Hb]|left; lia].
Qed.

(** The sort is stable: entries in the order [before] come out by
    decreasing count, equal counts in the order [before]. *)
Lemma sorted_desc_sorted before (c : Counter.t) :
  StronglySorted before c ->
  StronglySorted (by_count before) (Counter.sorted_desc c).
Proof.
  induction c as [|x c IH]; simpl; intros Hs; [constructor|].
  apply StronglySorted_inv in Hs as [Hs Hx].
  apply insert_desc_sorted; [by apply IH|].
  by rewrite sorted_desc_perm.
Qed.

Lemma of_list_snoc (l : list string) x :
  Counter.of_list (l ++ [x]) = Counter.incr x (Counter.of_list l).
Proof. unfold Counter.of_list. by rewrite fold_left_app. Qed.

Lemma incr_keys_in k (c : Counter.t) :
  In k (map fst c) -> map fst (Counter.incr k c) = map fst c.
Proof.
  induction c as [|[k' n] c IH]; simpl; [done|].
  destruct (String.eqb k' k) eqn:E; [done|].
  intros [->|H]; [by rewrite String.eqb_refl in E|].
  simpl. by rewrite IH.
Qed.

Lemma incr_keys_notin k (c : Counter.t) :
  ~ In k (map fst c) -> map fst (Counter.incr k c) = map fst c ++ [k].
Proof.
  induction c as [|[k' n] c IH]; simpl; [done|].
  intros Hnot. destruct (String.eqb k' k) eqn:E.
  - apply String.eqb_eq in E. tauto.
  - simpl. rewrite IH; [done|tauto].
Qed.

Lemma incr_new k (c : Counter.t) :
  ~ In k (map fst c) -> Counter.incr k c = c ++ [(k, 1%nat)].
Proof.
  induction c as [|[k' n] c IH]; simpl; [done|].
  intros Hnot. destruct (String.eqb k' k) eqn:E.
  - apply String.eqb_eq in E. tauto.
  - rewrite IH; [done|tauto].
Qed.

Lemma incr_entries k (c : Counter.t) k' n' :
  NoDup (map fst c) ->
  In (k', n') (Counter.incr k c) ->
  (k' <> k /\ In (k', n') c)
  \/ (k' = k /\ exists n, n' = S n /\ In (k, n) c)
  \/ (k' = k /\ n' = 1%nat /\ ~ In k (map fst c)).
Proof.
  induction c as [|[k0 n0] c IH]; simpl; intros Hnd.
  - intros [[= <- <-]|[]]. right. right. tauto.
  - apply NoDup_cons in Hnd as [Hk0 Hnd].
    rewrite list_elem_of_In in Hk0.
    destruct (String.eqb k0 k) eqn:E.
    + apply String.eqb_eq in E. subst k0.
      intros [[= <- <-]|H].
      * right. left. split; [done|]. exists n0. split; [done|by left].
      * left. split; [|by right]. intros ->.
        apply Hk0. by apply (in_map fst) in H.
    + apply String.eqb_neq in E. intros [[= <- <-]|H].
      * left. split; [done|by left].
      * destruct (IH Hnd H) as [[H1 H2]|[(H1 & n & H2 & H3)|(H1 & H2 & H3)]].
        -- left. split; [done|by right].
        -- right. left. split; [done|]. exists n. split; [done|by right].
        -- right. right. split; [done|]. split; [done|].
           intros [H4|H4]; [done|tauto].
Qed.

Lemma occurrences_snoc k (l : list string) x :
  occurrences k (l ++ [x])
  = (occurrences k l + if String.eqb k x then 1 else 0)%nat.
Proof.
  unfold occurrences. rewrite List.filter_app, length_app. simpl.
  by destruct (String.eqb k x).
Qed.

Lemma occurrences_notin k (l : list string) :
  ~ In k l -> occurrences k l = O.
Proof.
  unfold occurrences. induction l as [|x l IH]; simpl; [done|].
  intros Hnot. destruct (String.eqb k x) eqn:E.
  - apply String.eqb_eq in E. subst. tauto.
  - apply IH. tauto.
Qed.

Lemma first_before_snoc (l : list string) x a b :
  first_before l a b -> first_before (l ++ [x]) a b.
Proof.
  intros (pre & post & -> & H). exists pre, (post ++ [x]).
  split; [|done]. by rewrite <- app_assoc.
Qed.

Lemma first_before_new (l : list string) x a :
  In a l -> ~ In x l -> first_before (l ++ [x]) a x.
Proof.
  intros Ha Hx. apply list_elem_of_In in Ha.
  destruct (list_elem_of_split_l _ _ Ha) as (pre & post & -> & Hpre).
  exists pre, (post ++ [x]). rewrite list_elem_of_In in Hpre.
  split; [by rewrite <- app_assoc|]. split; [done|]. split.
  - intros H. apply Hx, in_or_app. by left.
  - intros ->. apply Hx, in_elt.
Qed.

Lemma StronglySorted_weaken {A} (R R' : A -> A -> Prop) (l : list A) :
  (forall x y, In x l -> In y l -> R x y -> R' x y) ->
  StronglySorted R l -> StronglySorted R' l.
Proof.
  induction l as [|a l IH]; intros Himp Hs; [constructor|].
  apply StronglySorted_inv in Hs as [Hs Ha]. constructor.
  - apply IH; [|done]. intros x y Hx Hy. apply Himp; by right.
  - rewrite List.Forall_forall in Ha |- *. intros y Hy.
    apply Himp; [by left|by right|by apply Ha].
Qed.

Lemma StronglySorted_map {A B} (f : A -> B) (R : B -> B -> Prop)
  (l : list A) :
  StronglySorted (fun x y => R (f x) (f y)) l <->
  StronglySorted R (map f l).
Proof.
  induction l as [|a l IH]; simpl; [split; constructor|].
  rewrite !StronglySorted_cons, IH, Forall_map. done.
Qed.

Lemma of_list_counts (l : list string) : counts l (Counter.of_list l).
Proof.
  induction l as [|x l IH] using rev_ind.
  - split; simpl; try done; constructor.
  - rewrite of_list_snoc. destruct IH as [Hnd Hkeys Hcounts Horder].
    destruct (In_dec String.string_dec x (map fst (Counter.of_list l))) as [Hin|Hnot].
    + split.
      * by rewrite incr_keys_in.
      * intros k. rewrite incr_keys_in, Hkeys, in_app_iff by done.
        simpl. split; [tauto|]. intros [H|[<-|[]]]; [done|by apply Hkeys].
      * intros k n Hk. rewrite occurrences_snoc.
        destruct (incr_entries _ _ _ _ Hnd Hk)
          as [[H1 H2]|[(-> & m & -> & H2)|(_ & _ & H3)]]; [| |done].
        -- apply String.eqb_neq in H1. rewrite H1.
           rewrite (Hcounts _ _ H2). lia.
        -- rewrite String.eqb_refl, (Hcounts _ _ H2). lia.
      * rewrite incr_keys_in by done.
        eapply StronglySorted_weaken; [|exact Horder].
        intros a b _ _. apply first_before_snoc.
    + assert (Hx : ~ In x l) by by rewrite <- Hkeys.
      rewrite incr_new by done. split.
      * rewrite map_app. simpl. apply NoDup_app. split; [done|].
        split; [|apply NoDup_singleton].
        intros k Hk ->%list_elem_of_singleton.
        by apply list_elem_of_In in Hk.
      * intros k. rewrite map_app, !in_app_iff, Hkeys. done.
      * intros k n [Hk|[[= <- <-]|[]]]%in_app_or; rewrite occurrences_snoc.
        -- rewrite (Hcounts _ _ Hk).
           assert (Hne : k <> x).
           { intros ->. apply Hnot. by apply (in_map fst) in Hk. }
           apply String.eqb_neq in Hne. rewrite Hne. lia.
        -- by rewrite String.eqb_refl, occurrences_notin.
      * rewrite map_app. simpl. apply StronglySorted_app_2.
        -- intros a b Ha%list_elem_of_In ->%list_elem_of_singleton.
           apply first_before_new; [by apply Hkeys|done].
        -- eapply StronglySorted_weaken; [|exact Horder].
           intros a b _ _. apply first_before_snoc.
        -- repeat constructor.
Qed.

(** [most_common n] of a counter of [all] lists the [n] most frequent
    elements of [all], ties in the order of first occurrence. *)
Lemma most_common_most_frequent n (all : list string) :
  most_frequent n all
    (map fst (Counter.most_common n (Counter.of_list all))).
Proof.
  destruct (of_list_counts all) as [Hnd Hkeys Hcounts Horder].
  unfold Counter.most_common.
  set (c := Counter.of_list all) in *.
  set (s := Counter.sorted_desc c).
  assert (Hperm : Permutation s c) by apply sorted_desc_perm.
  assert (Hc : forall x, In x s -> snd x = occurrences (fst x) all).
  { intros [k m] Hx. apply Hcounts. by rewrite <- Hperm. }
  assert (Hs : StronglySorted (fun x y => outranks all (fst x) (fst y)) s).
  { apply StronglySorted_weaken with (R := by_count (entry_before all)).
    - intros x y Hx Hy [Hlt|[Heq [Hb _]]].
      + left. by rewrite <- (Hc x), <- (Hc y).
      + right. by rewrite <- (Hc x), <- (Hc y).
    - apply sorted_desc_sorted.
      apply StronglySorted_weaken
        with (R := fun x y => first_before all (fst x) (fst y)).
      + intros x y Hx Hy Hb. split; [done|].
        split; apply Hc; by rewrite Hperm.
      + by apply (proj2 (StronglySorted_map fst _ _)). }
  rewrite <- (take_drop n s) in Hs.
  assert (Hin : forall x, In x (take n s) -> In x s).
  { intros x Hx. rewrite <- (take_drop n s). apply in_or_app. by left. }
  split.
  - rewrite length_map. apply firstn_le_length.
  - assert (H : NoDup (map fst s)).
    { by rewrite (Permutation_map fst Hperm). }
    rewrite <- (take_drop n s), map_app in H.
    by apply NoDup_app in H as [H _].
  - intros x (e & <- & He)%in_map_iff. apply Hkeys.
    apply in_map. rewrite <- Hperm. by apply Hin.
  - apply (proj1 (StronglySorted_map fst _ _)).
    by apply StronglySorted_app in Hs as (_ & H & _).
  - intros y Hy Hnot.
    apply Hkeys, in_map_iff in Hy as (e & <- & He).
    rewrite <- Hperm, <- (take_drop n s) in He.
    apply in_app_or in He as [He|He]; [by apply (in_map fst) in He|].
    split.
    + rewrite length_map, length_take.
      destruct (decide (n < length s)%nat) as [Hlt|Hge]; [lia|].
      rewrite drop_ge in He by lia. done.
    + intros x (e1 & <- & He1)%in_map_iff.
      by apply (StronglySorted_app_1_elem_of _ _ _ _ _ Hs);
        apply list_elem_of_In.
Qed.

End CounterFacts.

(** ** The blocks of the four modules *)

Lemma block_field_enriched name fields joke (h h' : list dict) k :
  enriched name fields joke h h' ->
  block_field h' joke name k = Dict.get k fields.
Proof. intros E. unfold block_field. by rewrite (en_block _ _ _ _ _ E). Qed.

Lemma classify_cases (n : Z) :
  (JokeLengthClassifier.classify n = "short" <-> n <= 15)
  /\ (JokeLengthClassifier.classify n = "medium" <-> 16 <= n <= 30)
  /\ (JokeLengthClassifier.classify n = "long" <-> 31 <= n).
Proof.
  unfold JokeLengthClassifier.classify, JokeLengthClassifier.threshold_short,
    JokeLengthClassifier.threshold_medium.
  destruct (n <=? 15) eqn:E1; [apply Z.leb_le in E1|apply Z.leb_gt in E1];
    [|destruct (n <=? 30) eqn:E2;
      [apply Z.leb_le in E2|apply Z.leb_gt in E2]];
    repeat split; intros; try done; lia.
Qed.

(** C5: the [length_category] of the [length_classification] block is
    "short" exactly when the combined text has at most 15 words, "medium"
    exactly from 16 to 30 and "long" exactly from 31 on; 15, 16, 30 and
    31 words fall on the sides stated. *)
Theorem length_category_thresholds py_str (h : list dict) out joke d :
  h !! joke = Some d ->
  well_formed h joke = true ->
  let words := Z.of_nat (length (PyStr.split (full_text d))) in
  exists h' category,
    JokeLengthClassifier.enrich py_str joke (mkState h out)
    = Ok joke (mkState h' out)
    /\ block_field h' joke JokeLengthClassifier.name "word_count"
       = Some (VInt words)
    /\ block_field h' joke JokeLengthClassifier.name "length_category"
       = Some (VStr category)
    /\ (category = "short" <-> words <= 15)
    /\ (category = "medium" <-> 16 <= words <= 30)
    /\ (category = "long" <-> 31 <= words)
    /\ JokeLengthClassifier.classify 15 = "short"
    /\ JokeLengthClassifier.classify 16 = "medium"
    /\ JokeLengthClassifier.classify 30 = "medium"
    /\ JokeLengthClassifier.classify 31 = "long".
Proof.
  intros Hj Hwf words.
  destruct (length_enrich_ok py_str h joke d Hj Hwf) as (h' & Hrun & Hen).
  exists h', (JokeLengthClassifier.classify words).
  split; [apply Hrun|].
  rewrite !(block_field_enriched _ _ _ _ _ _ Hen).
  destruct (classify_cases words) as (H1 & H2 & H3).
  repeat split; try done; by (apply H1 || apply H2 || apply H3).
Qed.

Lemma length_category_thresholds_witness :
  exists h' category,
    JokeLengthClassifier.enrich no_str 0%nat (mkState sample_store [])
    = Ok 0%nat (mkState h' [])
    /\ block_field h' 0%nat JokeLengthClassifier.name "word_count"
       = Some (VInt 15)
    /\ block_field h' 0%nat JokeLengthClassifier.name "length_category"
       = Some (VStr category)
    /\ (category = "short" <-> 15 <= 15)
    /\ (category = "medium" <-> 16 <= 15 <= 30)
    /\ (category = "long" <-> 31 <= 15)
    /\ JokeLengthClassifier.classify 15 = "short"
    /\ JokeLengthClassifier.classify 16 = "medium"
    /\ JokeLengthClassifier.classify 30 = "medium"
    /\ JokeLengthClassifier.classify 31 = "long".
Proof.
  exact (length_category_thresholds no_str sample_store [] 0%nat sample_joke
           eq_refl eq_refl).
Defined.

(** *** Sentiment *)

Lemma threshold_value :
  SentimentAnalyzer.threshold = S754_finite false 7205759403792794 (-56).
Proof. by vm_compute. Qed.

Lemma neg_threshold_value :
  SentimentAnalyzer.neg_threshold = S754_finite true 7205759403792794 (-56).
Proof. by vm_compute. Qed.

(** A float below [-0.1] is not above [0.1]. *)
Lemma below_not_above (p : PyFloat.float) :
  PyFloat.ltb p SentimentAnalyzer.neg_threshold = true ->
  PyFloat.ltb SentimentAnalyzer.threshold p = false.
Proof.
  rewrite threshold_value, neg_threshold_value.
  unfold PyFloat.ltb, SFltb.
  by destruct p as [[]|[]| |[] m e].
Qed.

Lemma categorize_cases (p : PyFloat.float) :
  (PyFloat.ltb SentimentAnalyzer.threshold p = true ->
   SentimentAnalyzer.categorize p = "positive")
  /\ (PyFloat.ltb p SentimentAnalyzer.neg_threshold = true ->
      SentimentAnalyzer.categorize p = "negative")
  /\ (PyFloat.ltb SentimentAnalyzer.threshold p = false ->
      PyFloat.ltb p SentimentAnalyzer.neg_threshold = false ->
      SentimentAnalyzer.categorize p = "neutral").
Proof.
  unfold SentimentAnalyzer.categorize. split; [|split].
  - by intros ->.
  - intros H. by rewrite (below_not_above _ H), H.
  - by intros -> ->.
Qed.

Lemma threshold_decimal :
  SentimentAnalyzer.threshold = Spec.decimal 1 10.
Proof. done. Qed.

Lemma neg_threshold_decimal :
  SentimentAnalyzer.neg_threshold = SFopp (Spec.decimal 1 10).
Proof.
  unfold SentimentAnalyzer.neg_threshold, PyFloat.opp.
  by rewrite threshold_decimal.
Qed.

Lemma categorize_decimal (p : PyFloat.float) :
  (SFltb (Spec.decimal 1 10) p = true ->
   SentimentAnalyzer.categorize p = "positive")
  /\ (SFltb p (SFopp (Spec.decimal 1 10)) = true ->
      SentimentAnalyzer.categorize p = "negative")
  /\ (SFltb (Spec.decimal 1 10) p = false ->
      SFltb p (SFopp (Spec.decimal 1 10)) = false ->
      SentimentAnalyzer.categorize p = "neutral").
Proof.
  rewrite <- neg_threshold_decimal, <- threshold_decimal.
  apply categorize_cases.
Qed.

Lemma rounded_zero (nd : N) (r : spec_float) :
  Spec.rounded nd (S754_zero false) r -> r = S754_zero false.
Proof. done. Qed.

(** C8: the [sentiment_analysis] block holds the category of the
    polarity of the combined text, "positive" above the float 0.1,
    "negative" below the float -0.1 and "neutral" otherwise, and the
    polarity and the subjectivity of the combined text and the
    polarities of the setup and of the punchline, each rounded to 3
    decimals.  A missing field counts as the empty string.  With an
    analyser that gives a text without words the polarity and the
    subjectivity zero, as TextBlob does, such a text has the category
    "neutral" and the scores zero. *)
Theorem sentiment_block_spec tb_polarity tb_subjectivity py_str
  (h : list dict) out joke d :
  h !! joke = Some d ->
  well_formed h joke = true ->
  let setup := text_field d "setup" in
  let punchline := text_field d "punchline" in
  let text := setup +:+ " " +:+ punchline in
  let polarity := tb_polarity text in
  let tenth := Spec.decimal 1 10 in
  let name := SentimentAnalyzer.name in
  exists h' sentiment r_polarity r_subjectivity r_setup r_punchline,
    SentimentAnalyzer.enrich tb_polarity tb_subjectivity py_str joke
      (mkState h out) = Ok joke (mkState h' out)
    /\ (Dict.get "setup" d = None -> setup = "")
    /\ (Dict.get "punchline" d = None -> punchline = "")
    /\ (forall s, Dict.get "setup" d = Some (VStr s) -> setup = s)
    /\ (forall s, Dict.get "punchline" d = Some (VStr s) -> punchline = s)
    /\ block_field h' joke name "sentiment" = Some (VStr sentiment)
    /\ (SFltb tenth polarity = true -> sentiment = "positive")
    /\ (SFltb polarity (SFopp tenth) = true -> sentiment = "negative")
    /\ (SFltb tenth polarity = false ->
        SFltb polarity (SFopp tenth) = false -> sentiment = "neutral")
    /\ block_field h' joke name "polarity" = Some (VFloat r_polarity)
    /\ Spec.rounded 3 polarity r_polarity
    /\ block_field h' joke name "subjectivity"
       = Some (VFloat r_subjectivity)
    /\ Spec.rounded 3 (tb_subjectivity text) r_subjectivity
    /\ block_field h' joke name "setup_polarity" = Some (VFloat r_setup)
    /\ Spec.rounded 3 (tb_polarity setup) r_setup
    /\ block_field h' joke name "punchline_polarity"
       = Some (VFloat r_punchline)
    /\ Spec.rounded 3 (tb_polarity punchline) r_punchline
    /\ ((forall s, Spec.word_count s = O ->
         tb_polarity s = S754_zero false
         /\ tb_subjectivity s = S754_zero false) ->
        (Spec.word_count text = O ->
         sentiment = "neutral"
         /\ r_polarity = S754_zero false
         /\ r_subjectivity = S754_zero false)
        /\ (Spec.word_count setup = O -> r_setup = S754_zero false)
        /\ (Spec.word_count punchline = O ->
            r_punchline = S754_zero false)).
Proof.
  intros Hj Hwf setup punchline text polarity tenth name.
  destruct (sentiment_enrich_ok tb_polarity tb_subjectivity py_str h joke d
              Hj Hwf) as (h' & Hrun & Hen).
  exists h', (SentimentAnalyzer.categorize polarity),
    (PyFloat.round polarity 3), (PyFloat.round (tb_subjectivity text) 3),
    (PyFloat.round (tb_polarity setup) 3),
    (PyFloat.round (tb_polarity punchline) 3).
  split; [apply Hrun|].
  unfold name. rewrite !(block_field_enriched _ _ _ _ _ _ Hen).
  destruct (categorize_decimal polarity) as (H1 & H2 & H3).
  split; [unfold setup, text_field; by intros ->|].
  split; [unfold punchline, text_field; by intros ->|].
  split; [unfold setup, text_field; by intros s ->|].
  split; [unfold punchline, text_field; by intros s ->|].
  split; [reflexivity|].
  split; [exact H1|]. split; [exact H2|]. split; [exact H3|].
  split; [reflexivity|]. split; [apply round_rounded|].
  split; [reflexivity|]. split; [apply round_rounded|].
  split; [reflexivity|]. split; [apply round_rounded|].
  split; [reflexivity|]. split; [apply round_rounded|].
  intros Hlib. split; [|split].
  - intros Hw. destruct (Hlib text Hw) as [Hp Hs].
    unfold polarity. rewrite Hp, Hs. done.
  - intros Hw. destruct (Hlib setup Hw) as [Hp _]. by rewrite Hp.
  - intros Hw. destruct (Hlib punchline Hw) as [Hp _]. by rewrite Hp.
Qed.

Lemma toy_without_words (s : string) :
  Spec.word_count s = O ->
  toy_polarity s = S754_zero false /\ toy_subjectivity s = S754_zero false.
Proof.
  rewrite <- split_word_count. unfold toy_polarity, toy_subjectivity.
  by destruct (PyStr.split s).
Qed.

(** With the stand-in analyser: a record about love is positive, with
    the polarity 0.5 and the subjectivity 0.6; a record about hate and
    without punchline is negative, and its punchline has the polarity
    zero; a record without texts is neutral with zero scores. *)
Lemma sentiment_block_spec_witness :
  (exists h',
     SentimentAnalyzer.enrich toy_polarity toy_subjectivity no_str 0%nat
       (mkState [positive_joke] []) = Ok 0%nat (mkState h' [])
     /\ block_field h' 0%nat SentimentAnalyzer.name "sentiment"
        = Some (VStr "positive")
     /\ block_field h' 0%nat SentimentAnalyzer.name "polarity"
        = Some (VFloat (Spec.decimal 1 2))
     /\ block_field h' 0%nat SentimentAnalyzer.name "subjectivity"
        = Some (VFloat (Spec.decimal 6 10)))
  /\ (exists h',
        SentimentAnalyzer.enrich toy_polarity toy_subjectivity no_str 0%nat
          (mkState [negative_joke] []) = Ok 0%nat (mkState h' [])
        /\ block_field h' 0%nat SentimentAnalyzer.name "sentiment"
           = Some (VStr "negative")
        /\ block_field h' 0%nat SentimentAnalyzer.name "polarity"
           = Some (VFloat (SFopp (Spec.decimal 1 2)))
        /\ block_field h' 0%nat SentimentAnalyzer.name "punchline_polarity"
           = Some (VFloat (S754_zero false)))
  /\ (exists h',
        SentimentAnalyzer.enrich toy_polarity toy_subjectivity no_str 0%nat
          (mkState [empty_joke] []) = Ok 0%nat (mkState h' [])
        /\ block_field h' 0%nat SentimentAnalyzer.name "sentiment"
           = Some (VStr "neutral")
        /\ block_field h' 0%nat SentimentAnalyzer.name "polarity"
           = Some (VFloat (S754_zero false))
        /\ block_field h' 0%nat SentimentAnalyzer.name "subjectivity"
           = Some (VFloat (S754_zero false))
        /\ block_field h' 0%nat SentimentAnalyzer.name "setup_polarity"
           = Some (VFloat (S754_zero false))
        /\ block_field h' 0%nat SentimentAnalyzer.name "punchline_polarity"
           = Some (VFloat (S754_zero false))).
Proof.
  split; [|split].
  - destruct (sentiment_block_spec toy_polarity toy_subjectivity no_str
                [positive_joke] [] 0%nat positive_joke eq_refl eq_refl)
      as (h' & sentiment & rp & rs & rsp & rpp & Hrun & _ & _ & _ & _
          & Hs & Hpos & _ & _ & Hp & Hrp & Hsu & Hrs & _).
    exists h'. split; [exact Hrun|].
    rewrite Hs, Hp, Hsu.
    rewrite (Hpos ltac:(vm_compute; reflexivity)).
    rewrite (rounded_unique _ _ _ _ Hrp (round_rounded _ _)).
    rewrite (rounded_unique _ _ _ _ Hrs (round_rounded _ _)).
    split; [reflexivity|]. split; vm_compute; reflexivity.
  - destruct (sentiment_block_spec toy_polarity toy_subjectivity no_str
                [negative_joke] [] 0%nat negative_joke eq_refl eq_refl)
      as (h' & sentiment & rp & rs & rsp & rpp & Hrun & _ & Hmiss & _ & _
          & Hs & _ & Hneg & _ & Hp & Hrp & _ & _ & _ & _ & Hpp & _ & Hlib).
    destruct (Hlib toy_without_words) as (_ & _ & Hzero).
    exists h'. split; [exact Hrun|].
    rewrite Hs, Hp, Hpp.
    rewrite (Hneg ltac:(vm_compute; reflexivity)).
    rewrite (rounded_unique _ _ _ _ Hrp (round_rounded _ _)).
    rewrite (Hzero ltac:(rewrite (Hmiss eq_refl); reflexivity)).
    split; [reflexivity|]. split; [vm_compute; reflexivity|reflexivity].
  - destruct (sentiment_block_spec toy_polarity toy_subjectivity no_str
                [empty_joke] [] 0%nat empty_joke eq_refl eq_refl)
      as (h' & sentiment & rp & rs & rsp & rpp & Hrun & Hms & Hmp & _ & _
          & Hs & _ & _ & _ & Hp & _ & Hsu & _ & Hsp & _ & Hpp & _ & Hlib).
    destruct (Hlib toy_without_words) as (Htext & Hsetup & Hpunch).
    destruct Htext as (-> & -> & ->).
    { rewrite (Hms eq_refl), (Hmp eq_refl). reflexivity. }
    rewrite (Hsetup ltac:(rewrite (Hms eq_refl); reflexivity)) in Hsp.
    rewrite (Hpunch ltac:(rewrite (Hmp eq_refl); reflexivity)) in Hpp.
    exists h'. split; [exact Hrun|].
    split; [exact Hs|]. split; [exact Hp|]. split; [exact Hsu|].
    split; [exact Hsp|exact Hpp].
Defined.

(** *** Rounding at the threshold *)

(** A float above [0.1] and below [0.1005] has the exponent of [0.1]. *)
Lemma between_thresholds (p : PyFloat.float) :
  PyFloat.ltb (S754_finite false 7205759403792794 (-56)) p = true ->
  PyFloat.ltb p (S754_finite false 7241788200811758 (-56)) = true ->
  exists m,
    p = S754_finite false m (-56)
    /\ 7205759403792794 < Z.pos m /\ Z.pos m < 7241788200811758.
Proof.
  unfold PyFloat.ltb, SFltb, SFcompare.
  destruct p as [[]|[]| |[] m e]; cbv beta iota; try discriminate.
  destruct (Z.compare_spec (-56) e) as [<-|Hlt|Hgt]; try discriminate.
  - rewrite Z.compare_refl, !Pos.compare_cont_spec.
    cbv beta iota delta [Pos.switch_Eq].
    destruct (Pos.compare_spec 7205759403792794 m) as [|Hm1|];
      try discriminate.
    destruct (Pos.compare_spec m 7241788200811758) as [|Hm2|];
      try discriminate.
    intros _ _. exists m. split; [reflexivity|]. split; assumption.
  - intros _.
    destruct (Z.compare_spec e (-56)) as [Heq|Hlt'|Hgt];
      [exfalso; clear -Hlt Heq; lia|exfalso; clear -Hlt Hlt'; lia
      |discriminate].
Qed.

Lemma round_above_threshold (p : PyFloat.float) :
  PyFloat.ltb (PyFloat.of_ratio 1 10) p = true ->
  PyFloat.ltb p (PyFloat.of_ratio 1005 10000) = true ->
  PyFloat.round p 3 = PyFloat.of_ratio 1 10.
Proof.
  replace (PyFloat.of_ratio 1 10)
    with (S754_finite false 7205759403792794 (-56)) by by vm_compute.
  replace (PyFloat.of_ratio 1005 10000)
    with (S754_finite false 7241788200811758 (-56)) by by vm_compute.
  intros Hlo Hhi.
  destruct (between_thresholds p Hlo Hhi) as (m & -> & Hm1 & Hm2).
  clear Hlo Hhi.
  cbv beta iota zeta delta
    [PyFloat.round PyFloat.scaled_digits PyFloat.div_half_even].
  change (10 ^ Z.of_N 3) with 1000.
  change (Z.pos (2 ^ 56)) with 72057594037927936.
  assert (H0 : 72057594037927936 <> 0) by (clear; lia).
  assert (H1 : 0 < 72057594037927936) by (clear; lia).
  pose proof (Z.div_mod (Z.pos m * 1000) 72057594037927936 H0) as Hdiv.
  pose proof (Z.mod_pos_bound (Z.pos m * 1000) 72057594037927936 H1)
    as Hmod.
  set (q := Z.pos m * 1000 / 72057594037927936) in *.
  set (r := Z.pos m * 1000 mod 72057594037927936) in *.
  assert (Hq : q = 100) by (clearbody q r; lia).
  assert (Hr : 2 * r < 72057594037927936) by (clearbody q r; lia).
  apply Z.compare_lt_iff in Hr. rewrite Hr, Hq.
  by vm_compute.
Qed.

(** C10: the category comes from the polarity itself and the reported
    polarity from its rounding: a polarity above 0.1 and below 0.1005 is
    reported as 0.1 with the category "positive", while the polarity 0.1
    is reported as 0.1 with the category "neutral". *)
Theorem sentiment_threshold_rounding tb_polarity tb_subjectivity py_str
  (h : list dict) out joke d :
  h !! joke = Some d ->
  well_formed h joke = true ->
  let p := tb_polarity (full_text d) in
  PyFloat.ltb (PyFloat.of_ratio 1 10) p = true ->
  PyFloat.ltb p (PyFloat.of_ratio 1005 10000) = true ->
  exists h',
    SentimentAnalyzer.enrich tb_polarity tb_subjectivity py_str joke
      (mkState h out) = Ok joke (mkState h' out)
    /\ block_field h' joke SentimentAnalyzer.name "polarity"
       = Some (VFloat (PyFloat.of_ratio 1 10))
    /\ block_field h' joke SentimentAnalyzer.name "sentiment"
       = Some (VStr "positive")
    /\ PyFloat.round (PyFloat.of_ratio 1 10) 3 = PyFloat.of_ratio 1 10
    /\ SentimentAnalyzer.categorize (PyFloat.of_ratio 1 10) = "neutral".
Proof.
  intros Hj Hwf p Hlo Hhi.
  destruct (sentiment_enrich_ok tb_polarity tb_subjectivity py_str h joke d
              Hj Hwf) as (h' & Hrun & Hen).
  exists h'. split; [apply Hrun|].
  rewrite !(block_field_enriched _ _ _ _ _ _ Hen). simpl.
  fold p. rewrite (round_above_threshold p Hlo Hhi).
  split; [done|]. split; [|by vm_compute].
  unfold SentimentAnalyzer.categorize.
  by replace (PyFloat.ltb SentimentAnalyzer.threshold p) with true.
Qed.

Lemma sentiment_threshold_rounding_witness :
  exists h',
    SentimentAnalyzer.enrich mild_polarity flat_polarity no_str 0%nat
      (mkState sample_store []) = Ok 0%nat (mkState h' [])
    /\ block_field h' 0%nat SentimentAnalyzer.name "polarity"
       = Some (VFloat (PyFloat.of_ratio 1 10))
    /\ block_field h' 0%nat SentimentAnalyzer.name "sentiment"
       = Some (VStr "positive")
    /\ PyFloat.round (PyFloat.of_ratio 1 10) 3 = PyFloat.of_ratio 1 10
    /\ SentimentAnalyzer.categorize (PyFloat.of_ratio 1 10) = "neutral".
Proof.
  exact (sentiment_threshold_rounding mild_polarity flat_polarity no_str
           sample_store [] 0%nat sample_joke eq_refl eq_refl
           eq_refl eq_refl).
Defined.

(** *** Keywords *)

Lemma lower_text_full (d : dict) : lower_text d = PyStr.lower (full_text d).
Proof. unfold lower_text, full_text. by rewrite !lower_app. Qed.

Lemma all_keywords_concat (f : KeywordExtractor.found) :
  KeywordExtractor.all_keywords f = concat (map snd f).
Proof.
  unfold KeywordExtractor.all_keywords.
  enough (H : forall acc,
    fold_left (fun all '(_, l) => all ++ l) f acc = acc ++ concat (map snd f))
    by apply (H []).
  induction f as [|[c l] f IH]; intros acc; simpl.
  - by rewrite app_nil_r.
  - by rewrite IH, app_assoc.
Qed.

Lemma all_keywords_found (d : dict) :
  KeywordExtractor.all_keywords
    (KeywordExtractor.find_keywords (lower_text d))
  = all_found (PyStr.lower (full_text d)).
Proof.
  unfold all_found.
  rewrite find_keywords_found_in, all_keywords_concat, lower_text_full.
  reflexivity.
Qed.

Lemma keyword_block_get (a b c e : value) :
  Dict.get "keywords_by_category"
    [("keywords_by_category", a); ("top_keywords", b);
     ("total_keywords", c); ("keyword_density", e)] = Some a
  /\ Dict.get "top_keywords"
       [("keywords_by_category", a); ("top_keywords", b);
        ("total_keywords", c); ("keyword_density", e)] = Some b
  /\ Dict.get "total_keywords"
       [("keywords_by_category", a); ("top_keywords", b);
        ("total_keywords", c); ("keyword_density", e)] = Some c
  /\ Dict.get "keyword_density"
       [("keywords_by_category", a); ("top_keywords", b);
        ("total_keywords", c); ("keyword_density", e)] = Some e.
Proof. repeat split. Qed.

Ltac read_keyword_block :=
  match goal with
  | |- context [Dict.get _ [(_, ?a); (_, ?b); (_, ?c); (_, ?e)]] =>
      destruct (keyword_block_get a b c e) as (Get1 & Get2 & Get3 & Get4);
      rewrite ?Get1, ?Get2, ?Get3, ?Get4; clear Get1 Get2 Get3 Get4
  end.

(** C2: [keyword_density] is the number of found keywords divided by
    the number of words of the lower-cased combined text, the quotient
    being the nearest float and then rounded to 3 decimals; it is the
    integer 0 when that text has no word. *)
Theorem keyword_density_spec (h : list dict) out joke d :
  h !! joke = Some d ->
  well_formed h joke = true ->
  let text := Spec.lower (full_text d) in
  let words := Spec.word_count text in
  let total := length (all_found text) in
  let name := KeywordExtractor.name in
  exists h',
    KeywordExtractor.enrich joke (mkState h out) = Ok joke (mkState h' out)
    /\ block_field h' joke name "total_keywords"
       = Some (VInt (Z.of_nat total))
    /\ (words = O ->
        block_field h' joke name "keyword_density" = Some (VInt 0))
    /\ (words <> O ->
        exists density,
          block_field h' joke name "keyword_density"
          = Some (VFloat density)
          /\ Spec.rounded 3
               (Spec.quotient (Z.of_nat total) (Pos.of_nat words))
               density).
Proof.
  intros Hj Hwf text words total name. subst text words total name.
  destruct (keyword_enrich_ok h joke d Hj Hwf) as (h' & Hrun & Hen & _).
  exists h'. split; [apply Hrun|].
  rewrite !(block_field_enriched _ _ _ _ _ _ Hen).
  read_keyword_block.
  rewrite all_keywords_found, lower_text_full, split_word_count.
  rewrite lower_spec. unfold rounded_ratio.
  split; [reflexivity|].
  destruct (Spec.word_count (Spec.lower (full_text d))) as [|n].
  - split; [reflexivity|done].
  - split; [done|]. intros _. rewrite of_ratio_quotient.
    eexists. split; [reflexivity|]. exact (round_rounded _ 3).
Qed.

(** A record with 2 keywords in 6 words has the density 0.333, and a
    record without texts the density 0. *)
Lemma keyword_density_spec_witness :
  (exists h',
     KeywordExtractor.enrich 0%nat (mkState [fun_joke] [])
     = Ok 0%nat (mkState h' [])
     /\ block_field h' 0%nat KeywordExtractor.name "total_keywords"
        = Some (VInt 2)
     /\ block_field h' 0%nat KeywordExtractor.name "keyword_density"
        = Some (VFloat (Spec.decimal 333 1000)))
  /\ (exists h',
        KeywordExtractor.enrich 0%nat (mkState [empty_joke] [])
        = Ok 0%nat (mkState h' [])
        /\ block_field h' 0%nat KeywordExtractor.name "total_keywords"
           = Some (VInt 0)
        /\ block_field h' 0%nat KeywordExtractor.name "keyword_density"
           = Some (VInt 0)).
Proof.
  split.
  - destruct (keyword_density_spec [fun_joke] [] 0%nat fun_joke
                eq_refl eq_refl) as (h' & Hrun & Ht & _ & Hd).
    destruct Hd as (density & Hd & Hr).
    { intros Hw. vm_compute in Hw. discriminate Hw. }
    exists h'. split; [exact Hrun|]. split; [exact Ht|].
    rewrite Hd.
    rewrite (rounded_unique _ _ _ _ Hr (round_rounded _ _)).
    vm_compute. reflexivity.
  - destruct (keyword_density_spec [empty_joke] [] 0%nat empty_joke
                eq_refl eq_refl) as (h' & Hrun & Ht & Hd & _).
    exists h'. split; [exact Hrun|]. split; [exact Ht|].
    apply Hd. reflexivity.
Defined.

Lemma get_found_dict (f : KeywordExtractor.found) category l :
  NoDup (map fst f) ->
  In (category, l) f ->
  Dict.get category (KeywordExtractor.found_dict f)
  = Some (VList (map VStr l)).
Proof.
  induction f as [|[c l0] f IH]; simpl; [done|].
  intros [Hc Hnd]%NoDup_cons [[= -> ->]|Hin].
  - by rewrite String.eqb_refl.
  - destruct (String.eqb c category) eqn:E; [|by apply IH].
    apply String.eqb_eq in E. subst c. exfalso.
    apply Hc, list_elem_of_In. by apply (in_map fst) in Hin.
Qed.

Lemma found_in_categories (text : string) :
  map fst (found_in text) = map fst KeywordExtractor.programming_keywords.
Proof.
  unfold found_in.
  induction KeywordExtractor.programming_keywords as [|[c kws] t IH];
    [reflexivity|].
  cbn [map fst]. by rewrite IH.
Qed.

Lemma table_nodup category keywords :
  In (category, keywords) KeywordExtractor.programming_keywords ->
  NoDup keywords.
Proof.
  intros [[= <- <-]|[[= <- <-]|[[= <- <-]|[]]]]; compute_done.
Qed.

(** C7: [keywords_by_category] has the three categories, each with the
    keywords of its list that occur in the lower-cased combined text as
    substrings, in the order of the list and without repetition;
    [top_keywords] lists the 5 most frequent of all the keywords found,
    ties in the order in which they were found; [total_keywords] is
    their number.  On the second record of the demonstration script the
    languages found are "java" alone. *)
Theorem keyword_extraction_spec (h : list dict) out joke d :
  h !! joke = Some d ->
  well_formed h joke = true ->
  let text := PyStr.lower (full_text d) in
  let hit kw := PyStr.contains kw text in
  let all := all_found text in
  let name := KeywordExtractor.name in
  exists h' by_category categories top,
    KeywordExtractor.enrich joke (mkState h out) = Ok joke (mkState h' out)
    /\ block_field h' joke name "keywords_by_category"
       = Some (VRef by_category)
    /\ h' !! by_category = Some categories
    /\ Dict.keys categories = ["languages"; "concepts"; "tools"]
    /\ (forall category keywords,
          In (category, keywords) KeywordExtractor.programming_keywords ->
          Dict.get category categories
          = Some (VList (map VStr (List.filter hit keywords)))
          /\ NoDup (List.filter hit keywords))
    /\ (forall kw,
          hit kw = true <-> exists pre post, text = pre +:+ kw +:+ post)
    /\ block_field h' joke name "top_keywords" = Some (VList (map VStr top))
    /\ most_frequent 5 all top
    /\ block_field h' joke name "total_keywords"
       = Some (VInt (Z.of_nat (length all)))
    /\ found_in (PyStr.lower (full_text sample_joke))
       = [("languages", ["java"]); ("concepts", ["program"]);
          ("tools", ["ide"])].
Proof.
  intros Hj Hwf text hit all name. subst hit all name.
  destruct (keyword_enrich_ok h joke d Hj Hwf) as (h' & Hrun & Hen & Hfk).
  exists h', (length h), (KeywordExtractor.found_dict (found_in text)),
    (KeywordExtractor.top_keywords (all_found text)).
  split; [apply Hrun|].
  rewrite !(block_field_enriched _ _ _ _ _ _ Hen).
  read_keyword_block.
  rewrite all_keywords_found. fold text.
  split; [reflexivity|].
  split.
  { rewrite Hfk, find_keywords_found_in, lower_text_full. reflexivity. }
  split.
  { unfold Dict.keys, KeywordExtractor.found_dict.
    rewrite map_map.
    transitivity (map fst (found_in text)).
    - apply map_ext. by intros [c l].
    - rewrite found_in_categories. reflexivity. }
  split.
  { intros category keywords Hin. split.
    - apply get_found_dict.
      + rewrite found_in_categories. compute_done.
      + unfold found_in.
        apply (in_map (fun '(c, kws) =>
                 (c, List.filter (fun kw => PyStr.contains kw text) kws)))
          in Hin.
        exact Hin.
    - apply NoDup_ListNoDup, List.NoDup_filter, NoDup_ListNoDup.
      by eapply table_nodup. }
  split; [intros kw; apply contains_substring|].
  split; [reflexivity|].
  split; [apply most_common_most_frequent|].
  split; [reflexivity|].
  vm_compute. reflexivity.
Qed.

Lemma keyword_extraction_spec_witness :
  exists h' by_category categories,
    KeywordExtractor.enrich 0%nat (mkState sample_store [])
    = Ok 0%nat (mkState h' [])
    /\ block_field h' 0%nat KeywordExtractor.name "keywords_by_category"
       = Some (VRef by_category)
    /\ h' !! by_category = Some categories
    /\ Dict.get "languages" categories = Some (VList [VStr "java"]).
Proof.
  destruct (keyword_extraction_spec sample_store [] 0%nat sample_joke
              eq_refl eq_refl)
    as (h' & fk & cats & top & Hrun & Hk & Hc & _ & Hcat & _).
  exists h', fk, cats. split; [exact Hrun|].
  split; [exact Hk|]. split; [exact Hc|].
  pose proof (proj1 (Hcat _ _ (or_introl eq_refl))) as H.
  match type of H with
  | _ = Some (VList (map VStr ?l)) =>
      replace l with ["java"] in H by (vm_compute; reflexivity)
  end.
  exact H.
Defined.

(** ** The pipeline *)

Section Pipeline.

Variable tb_polarity : string -> PyFloat.float.
Variable tb_subjectivity : string -> PyFloat.float.
Variable py_str : str_builtin.

Local Abbreviation enrich :=
  (JokeEnrichmentPipeline.enrich tb_polarity tb_subjectivity py_str).
Local Abbreviation apply_types :=
  (JokeEnrichmentPipeline.apply_types tb_polarity tb_subjectivity py_str).
Local Abbreviation enrich_jokes :=
  (JokeEnrichmentPipeline.enrich_jokes tb_polarity tb_subjectivity py_str).

(** Every enricher succeeds on a well-formed record. *)
Lemma enrich_ok e (h : list dict) joke :
  well_formed h joke = true ->
  exists h' fields,
    (forall out, enrich e joke (mkState h out) = Ok joke (mkState h' out))
    /\ enriched (JokeEnrichmentPipeline.enricher_name e) fields joke h h'.
Proof.
  intros Hwf. destruct (well_formed_inv _ _ Hwf) as (d & Hj & _).
  destruct e; cbn [JokeEnrichmentPipeline.enrich
                   JokeEnrichmentPipeline.enricher_name].
  - destruct (sentiment_enrich_ok tb_polarity tb_subjectivity py_str
                h joke d Hj Hwf) as (h' & Hrun & Hen). eauto.
  - destruct (keyword_enrich_ok h joke d Hj Hwf) as (h' & Hrun & Hen & _).
    eauto.
  - destruct (readability_enrich_ok py_str h joke d Hj Hwf)
      as (h' & Hrun & Hen). eauto.
  - destruct (length_enrich_ok py_str h joke d Hj Hwf)
      as (h' & Hrun & Hen). eauto.
Qed.

(** The namespace of a record in a store that has grown. *)
Lemma namespace_grows (h h' : list dict) l (e : dict) :
  store_grows h h' ->
  enrichment_of h l = Some e ->
  exists e', enrichment_of h' l = Some e'
    /\ dict_grows e e'
    /\ forall k, is_ref h (Dict.get k e) = true ->
                 is_ref h' (Dict.get k e') = true.
Proof.
  intros G. unfold enrichment_of, field, deref.
  destruct (h !! l) as [d|] eqn:Hl; [|done].
  destruct (G _ _ Hl) as (d' & Hl' & [_ _ N] & _). rewrite Hl'.
  destruct (Dict.get "enrichment" d) as [v|] eqn:He; [|done].
  rewrite (N v eq_refl).
  destruct v as [| | | | | |le]; try done.
  intros Hle. destruct (G _ _ Hle) as (e' & Hle' & Ge & _ & R).
  by exists e'.
Qed.

Lemma namespace_kept (h h' : list dict) l k :
  store_grows h h' ->
  is_Some (namespace_get h l k) -> is_Some (namespace_get h' l k).
Proof.
  intros G. unfold namespace_get.
  destruct (enrichment_of h l) as [e|] eqn:He; [|by intros []].
  destruct (namespace_grows _ _ _ _ G He) as (e' & -> & [K _ _] & _).
  apply K.
Qed.

Lemma block_kept (h h' : list dict) l name :
  store_grows h h' ->
  is_Some (block_of h l name) -> is_Some (block_of h' l name).
Proof.
  intros G. unfold block_of, namespace_get.
  destruct (enrichment_of h l) as [e|] eqn:He; [|by intros []].
  destruct (namespace_grows _ _ _ _ G He) as (e' & -> & _ & R).
  specialize (R name). unfold is_ref, deref in *.
  destruct (Dict.get name e) as [[| | | | | |b]|]; try by intros [].
  intros Hb. apply lookup_lt_is_Some_1, Nat.ltb_lt in Hb.
  specialize (R Hb).
  destruct (Dict.get name e') as [[| | | | | |b']|]; try done.
  by apply lookup_lt_is_Some_2, Nat.ltb_lt.
Qed.

Lemma well_formed_copy (h : list dict) j (d : dict) :
  h !! j = Some d ->
  well_formed h j = true -> well_formed (h ++ [d]) (length h) = true.
Proof.
  intros Hj Hwf. unfold well_formed in *. rewrite Hj in Hwf.
  rewrite list_lookup_middle by done.
  apply andb_prop in Hwf as [-> Hn]. cbn [andb].
  revert Hn. apply is_namespace_mono. rewrite length_app. lia.
Qed.

(** The inner loop on a well-formed record: it ends, with one warning per
    unknown name, in the store the known names alone lead to. *)
Lemma apply_types_ok (enrichment_types : list string) :
  forall (h : list dict) joke,
  well_formed h joke = true ->
  exists h',
    (forall out,
       apply_types enrichment_types joke (mkState h out)
       = Ok joke (mkState h' (out ++ warnings enrichment_types)))
    /\ (forall out,
          apply_types (valid_types enrichment_types) joke (mkState h out)
          = Ok joke (mkState h' out))
    /\ store_grows h h'
    /\ (forall t e,
          In t enrichment_types ->
          JokeEnrichmentPipeline.lookup t JokeEnrichmentPipeline.enrichers
          = Some e ->
          is_Some (block_of h' joke (JokeEnrichmentPipeline.enricher_name e))).
Proof.
  induction enrichment_types as [|t ts IH]; intros h joke Hwf.
  - exists h. split; [intros out; by rewrite app_nil_r|].
    split; [done|]. split; [apply store_grows_refl|by intros t e []].
  - destruct (JokeEnrichmentPipeline.lookup t
                JokeEnrichmentPipeline.enrichers) as [e|] eqn:Ht.
    + assert (Hk : is_known t = true) by (unfold is_known; by rewrite Ht).
      destruct (enrich_ok e h joke Hwf) as (h1 & fields & Hrun & Hen).
      destruct (IH h1 joke) as (h' & Hall & Hvalid & G & Hblocks).
      { eapply well_formed_grows; [apply (en_grows _ _ _ _ _ Hen)|done]. }
      exists h'. unfold valid_types, warnings in *.
      cbn [List.filter]. rewrite Hk.
      cbn [negb JokeEnrichmentPipeline.apply_types]. rewrite Ht.
      split; [|split; [|split]].
      * intros out. erewrite bind_ok by apply Hrun. apply Hall.
      * intros out. erewrite bind_ok by apply Hrun. apply Hvalid.
      * eapply store_grows_trans; [apply (en_grows _ _ _ _ _ Hen)|done].
      * intros t' e' [<-|Hin] Ht'.
        -- replace e' with e by congruence.
           apply (block_kept h1 h' _ _ G).
           rewrite (en_block _ _ _ _ _ Hen). by eexists.
        -- by eapply Hblocks.
    + assert (Hk : is_known t = false) by (unfold is_known; by rewrite Ht).
      destruct (IH h joke Hwf) as (h' & Hall & Hvalid & G & Hblocks).
      exists h'. unfold valid_types, warnings in *.
      cbn [List.filter]. rewrite Hk.
      cbn [negb map JokeEnrichmentPipeline.apply_types]. rewrite Ht.
      split; [|split; [done|split; [done|]]].
      * intros out. unfold print. erewrite bind_ok by reflexivity.
        cbn [heap stdout]. rewrite Hall.
        by rewrite <- app_assoc.
      * intros t' e' [<-|Hin] Ht'; [congruence|by eapply Hblocks].
Qed.

Lemma field_grows (h h' : list dict) l k :
  store_grows h h' -> is_Some (h !! l) -> is_written k = false ->
  field h' l k = field h l k.
Proof.
  intros G [d Hl] Hk. unfold field. rewrite Hl.
  destruct (G _ _ Hl) as (d' & -> & [_ O _] & _). by apply O.
Qed.

Lemma enriched_copy_earlier enrichment_types (h0 h h' : list dict) j o :
  store_grows h0 h ->
  is_Some (h0 !! j) ->
  enriched_copy enrichment_types h h' j o ->
  enriched_copy enrichment_types h0 h' j o.
Proof.
  intros G Hj [F E B K]. split.
  - pose proof (store_grows_length _ _ G). lia.
  - intros k Hk. rewrite (E k Hk). by apply field_grows.
  - done.
  - intros k Hk. apply K. by eapply namespace_kept.
Qed.

Lemma namespace_get_copy (h : list dict) j (d : dict) k :
  h !! j = Some d ->
  is_Some (namespace_get h j k) ->
  namespace_get (h ++ [d]) (length h) k = namespace_get h j k.
Proof.
  intros Hj. unfold namespace_get, enrichment_of, field, deref.
  rewrite Hj, list_lookup_middle by done.
  destruct (Dict.get "enrichment" d) as [[| | | | | |le]|]; try by intros [].
  destruct (h !! le) as [e|] eqn:Hle; [|by intros []].
  by rewrite (lookup_app_l_Some _ _ _ _ Hle).
Qed.

Lemma dict_copy_ok (h : list dict) out j (d : dict) :
  h !! j = Some d ->
  dict_copy j (mkState h out) = Ok (length h) (mkState (h ++ [d]) out).
Proof. intros Hj. unfold dict_copy, bind, load, alloc; simpl. by rewrite Hj. Qed.

(** The outer loop on well-formed records. *)
Lemma enrich_jokes_ok (enrichment_types : list string) :
  forall (jokes : list loc) (h : list dict),
  Forall (fun j => well_formed h j = true) jokes ->
  exists outs h',
    (forall out,
       enrich_jokes jokes enrichment_types (mkState h out)
       = Ok outs
           (mkState h'
              (out ++ concat (map (fun _ => warnings enrichment_types)
                                jokes))))
    /\ (forall out,
          enrich_jokes jokes (valid_types enrichment_types) (mkState h out)
          = Ok outs (mkState h' out))
    /\ store_grows h h'
    /\ Forall2 (enriched_copy enrichment_types h h') jokes outs.
Proof.
  induction jokes as [|j rest IH]; intros h Hwf.
  - exists [], h. split; [intros out; by rewrite app_nil_r|].
    split; [done|]. split; [apply store_grows_refl|constructor].
  - apply Forall_cons in Hwf as [Hj Hrest].
    destruct (well_formed_inv _ _ Hj) as (d & Hd & _).
    pose proof (well_formed_copy h j d Hd Hj) as Hc.
    destruct (apply_types_ok enrichment_types (h ++ [d]) (length h) Hc)
      as (h2 & Hall & Hvalid & G12 & Hblocks).
    assert (G02 : store_grows h h2).
    { eapply store_grows_trans; [apply store_grows_app|exact G12]. }
    destruct (IH h2) as (outs & h3 & Hall' & Hvalid' & G23 & Hcopies).
    { eapply Forall_impl; [exact Hrest|].
      intros j'. by apply well_formed_grows. }
    exists (length h :: outs), h3.
    split; [|split; [|split]].
    + intros out. cbn [JokeEnrichmentPipeline.enrich_jokes].
      erewrite bind_ok by by apply dict_copy_ok.
      erewrite bind_ok by apply Hall.
      erewrite bind_ok by apply Hall'.
      unfold ret. cbn [map concat]. by rewrite <- app_assoc.
    + intros out. cbn [JokeEnrichmentPipeline.enrich_jokes].
      erewrite bind_ok by by apply dict_copy_ok.
      erewrite bind_ok by apply Hvalid.
      by erewrite bind_ok by apply Hvalid'.
    + by eapply store_grows_trans.
    + constructor.
      * assert (G13 : store_grows (h ++ [d]) h3)
          by by eapply store_grows_trans.
        split.
        -- done.
        -- intros k Hk. rewrite (field_grows _ _ _ _ G13); [|by rewrite list_lookup_middle|done].
           unfold field. by rewrite list_lookup_middle, Hd.
        -- intros t e Ht He. apply (block_kept h2 h3 _ _ G23).
           by eapply Hblocks.
        -- intros k Hk. apply (namespace_kept _ _ _ _ G13).
           by rewrite (namespace_get_copy _ _ _ _ Hd Hk).
      * clear -Hrest Hcopies G02.
        induction Hcopies as [|j' o js os Hjo _ IHc]; [constructor|].
        apply Forall_cons in Hrest as [Hj' Hrest]. constructor.
        -- eapply enriched_copy_earlier; [exact G02| |exact Hjo].
           destruct (well_formed_inv _ _ Hj') as (d' & Hd' & _). by eexists.
        -- by apply IHc.
Qed.

Lemma bind_ext {A B} (m m' : M A) (k k' : A -> M B) st :
  m st = m' st ->
  (forall a st', k a st' = k' a st') -> bind m k st = bind m' k' st.
Proof. intros Hm H. unfold bind. rewrite Hm. by destruct (m' st). Qed.

(** The known names of a request are applied as the enrichers they
    name, one after the other in the order of the request. *)
Lemma apply_types_in_order (enrichment_types : list string) :
  forall joke st,
  apply_types (valid_types enrichment_types) joke st
  = Spec.run_in_order tb_polarity tb_subjectivity py_str
      (Spec.known_enrichers enrichment_types) joke st.
Proof.
  induction enrichment_types as [|t ts IH]; intros joke st; [done|].
  unfold valid_types. cbn [List.filter Spec.known_enrichers].
  unfold is_known at 1.
  destruct (JokeEnrichmentPipeline.lookup t
              JokeEnrichmentPipeline.enrichers) as [e|] eqn:Ht.
  - cbn [JokeEnrichmentPipeline.apply_types Spec.run_in_order].
    rewrite Ht. apply bind_ext; [done|]. intros a st'. apply IH.
  - apply IH.
Qed.

Lemma enrich_jokes_pipeline (enrichment_types : list string) :
  forall jokes st,
  enrich_jokes jokes (valid_types enrichment_types) st
  = Spec.pipeline tb_polarity tb_subjectivity py_str
      (Spec.known_enrichers enrichment_types) jokes st.
Proof.
  induction jokes as [|j rest IH]; intros st; [done|].
  cbn [JokeEnrichmentPipeline.enrich_jokes Spec.pipeline].
  apply bind_ext; [done|]. intros copy st1.
  apply bind_ext; [apply apply_types_in_order|]. intros joke st2.
  apply bind_ext; [apply IH|done].
Qed.

End Pipeline.

(** ** The pipeline on unknown names, and what it keeps *)

Lemma forallb_well_formed (h : list dict) (jokes : list loc) :
  forallb (well_formed h) jokes = true ->
  Forall (fun j => well_formed h j = true) jokes.
Proof.
  intros H. apply List.Forall_forall. by apply forallb_forall.
Qed.

Lemma Forall2_length_eq {A B} (R : A -> B -> Prop) l k :
  Forall2 R l k -> length k = length l.
Proof. induction 1; simpl; congruence. Qed.

(** C6, as it is worded, fails on an empty list of records: "foo" is
    not in the registry and is requested, and the run ends without
    having printed a warning. *)
Lemma unknown_name_without_warning :
  is_known "foo" = false
  /\ JokeEnrichmentPipeline.enrich_jokes flat_polarity flat_polarity no_str
       [] ["foo"; "length"] (mkState [] [])
     = Ok [] (mkState [] []).
Proof. split; reflexivity. Qed.

(** C6, amended: an unknown name never makes [enrich_jokes] raise.  On
    well-formed records the run ends, having printed the warning of
    each unknown name once for every record, so none for an empty list
    of records; it ends with the records and in the store that copying
    each record and applying the enrichers of the known names, one
    after the other in the order of the request, leads to; the result
    has one record for every input record, with its fields and a block
    for every known name requested, so ["foo"; "length"] gives the
    [length_classification] block. *)
Theorem enrich_jokes_unknown_names tb_polarity tb_subjectivity py_str
  (jokes : list loc) (enrichment_types : list string)
  (h : list dict) out :
  forallb (well_formed h) jokes = true ->
  exists outs h',
    JokeEnrichmentPipeline.enrich_jokes tb_polarity tb_subjectivity py_str
      jokes enrichment_types (mkState h out)
    = Ok outs
        (mkState h'
           (out ++ concat (map (fun _ => warnings enrichment_types) jokes)))
    /\ Spec.pipeline tb_polarity tb_subjectivity py_str
         (Spec.known_enrichers enrichment_types) jokes (mkState h out)
       = Ok outs (mkState h' out)
    /\ length outs = length jokes
    /\ Forall2 (enriched_copy enrichment_types h h') jokes outs
    /\ (In "length" enrichment_types ->
        Forall (fun o => is_Some (block_of h' o "length_classification"))
          outs)
    /\ warnings ["foo"; "length"] = ["Warning: Unknown enrichment type 'foo'"]
    /\ Spec.known_enrichers ["foo"; "length"]
       = [JokeEnrichmentPipeline.Length].
Proof.
  intros Hwf%forallb_well_formed.
  destruct (enrich_jokes_ok tb_polarity tb_subjectivity py_str
              enrichment_types jokes h Hwf)
    as (outs & h' & Hall & Hvalid & _ & Hcopies).
  exists outs, h'. split; [apply Hall|].
  split; [rewrite <- enrich_jokes_pipeline; apply Hvalid|].
  split; [by eapply Forall2_length_eq|]. split; [done|].
  split; [|by vm_compute].
  intros Hin. clear -Hin Hcopies.
  induction Hcopies as [|j o js os Hjo _ IH]; constructor; [|done].
  by apply (ec_blocks _ _ _ _ _ Hjo "length" JokeEnrichmentPipeline.Length).
Qed.

(** Two records and the request ["length"; "foo"; "sentiment"]: the
    warning is printed twice, once for each record, and both output
    records have the two blocks, in the order of the request. *)
Lemma enrich_jokes_unknown_names_witness :
  exists outs h',
    JokeEnrichmentPipeline.enrich_jokes flat_polarity flat_polarity no_str
      [0%nat; 1%nat] ["length"; "foo"; "sentiment"] (mkState two_jokes [])
    = Ok outs
        (mkState h'
           ["Warning: Unknown enrichment type 'foo'";
            "Warning: Unknown enrichment type 'foo'"])
    /\ length outs = 2%nat
    /\ Forall (fun o => is_Some (block_of h' o "length_classification")) outs
    /\ Forall
         (fun o =>
            option_map Dict.keys (enrichment_of h' o)
            = Some ["length_classification"; "sentiment_analysis"])
         outs.
Proof.
  destruct (enrich_jokes_unknown_names flat_polarity flat_polarity no_str
              [0%nat; 1%nat] ["length"; "foo"; "sentiment"] two_jokes []
              eq_refl)
    as (outs & h' & Hall & _ & Hlen & _ & Hblock & _).
  exists outs, h'. split; [exact Hall|]. split; [exact Hlen|].
  split; [apply Hblock; left; reflexivity|].
  vm_compute in Hall. injection Hall as <- <-.
  repeat constructor.
Defined.

(** C9: an enricher stores its block under its own name in the namespace
    of the record and leaves every other key of the namespace with its
    value, and every object other than the record and its namespace as
    it was; no key of a namespace is lost, by an enricher or by
    [enrich_jokes], whose output records have the keys their input
    records had. *)
Theorem enrich_keeps_siblings tb_polarity tb_subjectivity py_str
  (e : JokeEnrichmentPipeline.enricher) (jokes : list loc)
  (enrichment_types : list string) (h : list dict) out joke :
  well_formed h joke = true ->
  forallb (well_formed h) jokes = true ->
  let name := JokeEnrichmentPipeline.enricher_name e in
  (exists h' block,
     JokeEnrichmentPipeline.enrich tb_polarity tb_subjectivity py_str e joke
       (mkState h out) = Ok joke (mkState h' out)
     /\ block_of h' joke name = Some block
     /\ (forall k, k <> name ->
         namespace_get h' joke k = namespace_get h joke k)
     /\ (forall k, is_Some (namespace_get h joke k) ->
         is_Some (namespace_get h' joke k))
     /\ (forall l, l <> joke -> field h joke "enrichment" <> Some (VRef l) ->
         (l < length h)%nat -> h' !! l = h !! l))
  /\ (exists outs h',
        JokeEnrichmentPipeline.enrich_jokes tb_polarity tb_subjectivity
          py_str jokes enrichment_types (mkState h out)
        = Ok outs
            (mkState h'
               (out ++ concat (map (fun _ => warnings enrichment_types)
                                 jokes)))
        /\ (forall l k, is_Some (namespace_get h l k) ->
            is_Some (namespace_get h' l k))
        /\ Forall2
             (fun j o => forall k, is_Some (namespace_get h j k) ->
                                   is_Some (namespace_get h' o k))
             jokes outs).
Proof.
  intros Hwf Hall%forallb_well_formed name. split.
  - destruct (enrich_ok tb_polarity tb_subjectivity py_str e h joke Hwf)
      as (h' & block & Hrun & [B S F R G]).
    exists h', block. split; [apply Hrun|]. split; [done|].
    split; [done|]. split; [|done].
    intros k. by apply namespace_kept.
  - destruct (enrich_jokes_ok tb_polarity tb_subjectivity py_str
                enrichment_types jokes h Hall)
      as (outs & h' & Hrun & _ & G & Hcopies).
    exists outs, h'. split; [apply Hrun|]. split.
    + intros l k. by apply namespace_kept.
    + clear -Hcopies.
      induction Hcopies as [|j o js os Hjo _ IH]; constructor; [|done].
      apply (ec_keys _ _ _ _ _ Hjo).
Qed.

(** A record whose namespace has the key [sentiment_analysis] keeps it,
    with its block, when the length classifier runs on it; and the
    record [enrich_jokes] returns for it has the key too. *)
Lemma enrich_keeps_siblings_witness :
  namespace_get sibling_store 0%nat "sentiment_analysis"
  = Some (VRef 2%nat)
  /\ (exists h' block,
        JokeEnrichmentPipeline.enrich flat_polarity flat_polarity no_str
          JokeEnrichmentPipeline.Length 0%nat (mkState sibling_store [])
        = Ok 0%nat (mkState h' [])
        /\ block_of h' 0%nat "length_classification" = Some block
        /\ namespace_get h' 0%nat "sentiment_analysis" = Some (VRef 2%nat)
        /\ h' !! 2%nat = Some [("sentiment", VStr "neutral")])
  /\ (exists outs h',
        JokeEnrichmentPipeline.enrich_jokes flat_polarity flat_polarity
          no_str [0%nat] ["length"] (mkState sibling_store [])
        = Ok outs (mkState h' [])
        /\ is_Some (namespace_get h' 0%nat "sentiment_analysis")
        /\ Forall
             (fun o => is_Some (namespace_get h' o "sentiment_analysis"))
             outs).
Proof.
  destruct (enrich_keeps_siblings flat_polarity flat_polarity no_str
              JokeEnrichmentPipeline.Length [0%nat] ["length"]
              sibling_store [] 0%nat eq_refl eq_refl)
    as [(h' & block & Hrun & Hb & Hs & _ & Hf)
        (outs & h2 & Hrun2 & Hk & Hc)].
  split; [reflexivity|]. split.
  - exists h', block. split; [exact Hrun|]. split; [exact Hb|].
    split.
    + rewrite (Hs "sentiment_analysis"); [reflexivity|discriminate].
    + rewrite (Hf 2%nat); [reflexivity|discriminate|discriminate|].
      vm_compute. reflexivity.
  - exists outs, h2. split; [exact Hrun2|]. split.
    + apply Hk. by eexists.
    + inversion Hc as [|j o js os Ho Hrest]; subst.
      inversion Hrest; subst. constructor; [|constructor].
      apply Ho. by eexists.
Defined.

(** C1: the copy [enrich_jokes] makes of a record is shallow.  On a
    record that has an [enrichment] dictionary, the block is written
    into that dictionary, which the input record still refers to: the
    input record, unchanged at top level, has a changed namespace. *)
Theorem enrich_jokes_mutates_shared_namespace tb_polarity tb_subjectivity
  py_str :
  exists out_joke block h',
    JokeEnrichmentPipeline.enrich_jokes tb_polarity tb_subjectivity py_str
      [0%nat] ["length"] (mkState enriched_store [])
    = Ok [out_joke] (mkState h' [])
    /\ out_joke <> 0%nat
    /\ h' !! 0%nat = enriched_store !! 0%nat
    /\ enrichment_of enriched_store 0%nat = Some []
    /\ enrichment_of h' 0%nat = Some [("length_classification", VRef block)]
    /\ enrichment_of h' out_joke = enrichment_of h' 0%nat.
Proof.
  exists 2%nat, 4%nat. eexists. split; [by vm_compute|].
  split; [done|]. by vm_compute.
Qed.
